(** * async-cleanup: the listener registry, the exit-trigger interceptor
      and the cleanup execution protocol.

    The development embeds [src/AsyncCleanup.ts] (the class), [src/index.ts]
    (the singleton and its exported bound methods) and the module-level
    implementation with free functions.  The host runtime is modelled as far
    as the code uses it: the event subscriptions of [process], the identity
    of function objects ([Function.prototype.bind] allocates a new object on
    every call), promises that settle at some later time, and a trace of the
    effects the program performs on the runtime.  A listener is known by
    its identity and by the outcome of a call of it: it returns, returns a
    promise, or throws. *)

From Stdlib Require Import List ZArith String Bool Arith Lia DecimalString.
Import ListNotations.
Local Open Scope list_scope.

(** ** JavaScript values the code manipulates *)

Module Js.

(** A [CleanupListener] is a function object; only its identity matters to
    the registry. *)
Definition CleanupListener := nat.
Definition PromiseId := nat.
Definition Error := string.

(** [ExitSignal]: the five listened signals plus SIGKILL, SIGQUIT, SIGSTOP. *)
Inductive ExitSignal :=
| SIGBREAK | SIGHUP | SIGINT | SIGTERM | SIGUSR2
| SIGKILL | SIGQUIT | SIGSTOP.

Definition signal_name (s : ExitSignal) : string :=
  match s with
  | SIGBREAK => "SIGBREAK" | SIGHUP => "SIGHUP" | SIGINT => "SIGINT"
  | SIGTERM => "SIGTERM" | SIGUSR2 => "SIGUSR2"
  | SIGKILL => "SIGKILL" | SIGQUIT => "SIGQUIT" | SIGSTOP => "SIGSTOP"
  end%string.

Definition signal_eqb (a b : ExitSignal) : bool :=
  match a, b with
  | SIGBREAK, SIGBREAK | SIGHUP, SIGHUP | SIGINT, SIGINT
  | SIGTERM, SIGTERM | SIGUSR2, SIGUSR2
  | SIGKILL, SIGKILL | SIGQUIT, SIGQUIT | SIGSTOP, SIGSTOP => true
  | _, _ => false
  end.

(** The names of the events of [process] the code subscribes to. *)
Inductive EventName :=
| EvBeforeExit
| EvMessage
| EvUncaughtException
| EvSignal (s : ExitSignal).

Definition event_eqb (a b : EventName) : bool :=
  match a, b with
  | EvBeforeExit, EvBeforeExit => true
  | EvMessage, EvMessage => true
  | EvUncaughtException, EvUncaughtException => true
  | EvSignal s, EvSignal t => signal_eqb s t
  | _, _ => false
  end.

(** The methods of the class (and the functions of the module-level
    implementation, which have the same names). *)
Inductive Method :=
| MAdd | MRemove | MExecuteCleanupListeners
| MExitAfterCleanup | MKillAfterCleanup
| MBeforeExitListener | MUncaughtExceptionListener
| MSignalListener | MPm2ClusterShutdownListener
| MInstallExitListeners | MUninstallExitListeners.

Definition method_index (m : Method) : nat :=
  match m with
  | MAdd => 0 | MRemove => 1 | MExecuteCleanupListeners => 2
  | MExitAfterCleanup => 3 | MKillAfterCleanup => 4
  | MBeforeExitListener => 5 | MUncaughtExceptionListener => 6
  | MSignalListener => 7 | MPm2ClusterShutdownListener => 8
  | MInstallExitListeners => 9 | MUninstallExitListeners => 10
  end.

Definition method_eqb (a b : Method) : bool :=
  Nat.eqb (method_index a) (method_index b).

(** A function object: [fn_id] is its identity ([===] compares it),
    [fn_method] the code it runs, [fn_bound] the arguments fixed by
    [bind]. *)
Record FnObj := mkFn {
  fn_id : nat;
  fn_method : Method;
  fn_bound : list CleanupListener
}.

(** [a === b] on function objects. *)
Definition same_object (a b : FnObj) : bool := Nat.eqb (fn_id a) (fn_id b).

Inductive Value :=
| VUndefined
| VBool (b : bool)
| VFunction (f : FnObj)
| VPromise (p : PromiseId).

(** What one call of a listener does: it returns a value (a promise when
    the listener is asynchronous) or throws. *)
Inductive Behaviour :=
| Returns (v : Value)
| Throws (err : Error).

Inductive Settlement :=
| Fulfilled
| Rejected (reason : Error).

(** [Set<CleanupListener>]: distinct elements in insertion order. *)
Definition set_has (l : CleanupListener) (ls : list CleanupListener)
  : bool :=
  existsb (Nat.eqb l) ls.

Definition set_add (l : CleanupListener) (ls : list CleanupListener)
  : list CleanupListener :=
  if set_has l ls then ls else ls ++ [l].

Definition set_delete (l : CleanupListener) (ls : list CleanupListener)
  : list CleanupListener :=
  filter (fun x => negb (Nat.eqb l x)) ls.

(** A template literal holding an integer. *)
Definition number_to_string (z : Z) : string :=
  NilZero.string_of_int (Z.to_int z).

End Js.
Import Js.

(** ** The host runtime *)

Module Host.

(** Effects on the runtime, in the order they happen. *)
Inductive Effect :=
| ConsoleLog (msg : string)
| ConsoleError (msg : string) (arg : Error)
| ProcessOn (e : EventName) (f : FnObj)
| ProcessRemoveListener (e : EventName) (f : FnObj)
| ProcessExit (code : Z)
| ProcessKill (pid : nat) (signal : ExitSignal)
| Invoke (l : CleanupListener)
| AsyncRejected (reason : Error).

(** Where a suspended asynchronous call waits.  [Returned]: the awaited
    call of [executeCleanupListeners] returned without suspending;
    [Failed]: it threw; [AllSettled ps]: it is suspended at
    [await Promise.allSettled(ps)]. *)
Inductive Await :=
| Returned
| Failed (err : Error)
| AllSettled (promises : list PromiseId).

(** What the caller does once the awaited cleanup has fulfilled. *)
Inductive Continuation :=
| ThenExit (code : Z)
| ThenKill (signal : ExitSignal)
| ThenReturn.

Record Frame := mkFrame {
  fr_await : Await;
  fr_then : Continuation
}.

Record State := mkState {
  cleanupListeners : option (list CleanupListener);
  next_fn : nat;
  subs : list (EventName * FnObj);
  settled : list (PromiseId * Settlement);
  frames : list Frame;
  exited : option Z;
  pid : nat;
  trace : list Effect
}.

Definition set_cleanupListeners (v : option (list CleanupListener))
                                (s : State) :=
  mkState v (next_fn s) (subs s) (settled s) (frames s) (exited s)
          (pid s) (trace s).
Definition set_next_fn (v : nat) (s : State) :=
  mkState (cleanupListeners s) v (subs s) (settled s) (frames s) (exited s)
          (pid s) (trace s).
Definition set_subs (v : list (EventName * FnObj)) (s : State) :=
  mkState (cleanupListeners s) (next_fn s) v (settled s) (frames s)
          (exited s) (pid s) (trace s).
Definition set_settled (v : list (PromiseId * Settlement)) (s : State) :=
  mkState (cleanupListeners s) (next_fn s) (subs s) v (frames s)
          (exited s) (pid s) (trace s).
Definition set_frames (v : list Frame) (s : State) :=
  mkState (cleanupListeners s) (next_fn s) (subs s) (settled s) v
          (exited s) (pid s) (trace s).
Definition set_exited (v : option Z) (s : State) :=
  mkState (cleanupListeners s) (next_fn s) (subs s) (settled s) (frames s)
          v (pid s) (trace s).
Definition set_trace (v : list Effect) (s : State) :=
  mkState (cleanupListeners s) (next_fn s) (subs s) (settled s) (frames s)
          (exited s) (pid s) v.

Definition emit_effect (e : Effect) (s : State) : State :=
  set_trace (trace s ++ [e]) s.

(** Code that may throw and that changes the state. *)
Inductive Result (A : Type) :=
| Ok (a : A)
| Throw (err : Error).
Arguments Ok {A} a.
Arguments Throw {A} err.

Definition M (A : Type) := State -> Result A * State.

Definition ret {A} (a : A) : M A := fun s => (Ok a, s).

Definition bind {A B} (m : M A) (k : A -> M B) : M B :=
  fun s =>
    match m s with
    | (Ok a, s') => k a s'
    | (Throw e, s') => (Throw e, s')
    end.

Definition throw {A} (e : Error) : M A := fun s => (Throw e, s).

(** [try { m } catch (err) { h err }] *)
Definition try_catch {A} (m : M A) (h : Error -> M A) : M A :=
  fun s =>
    match m s with
    | (Ok a, s') => (Ok a, s')
    | (Throw e, s') => h e s'
    end.

Definition gets {A} (f : State -> A) : M A := fun s => (Ok (f s), s).
Definition modify (f : State -> State) : M unit := fun s => (Ok tt, f s).

Declare Scope js_scope.
Delimit Scope js_scope with js.
Notation "x <- m ;; k" := (bind m (fun x => k))
  (at level 61, m at next level, right associativity) : js_scope.
Notation "m ;; k" := (bind m (fun _ => k))
  (at level 61, right associativity) : js_scope.
Local Open Scope js_scope.

(** [xs.forEach(f)] and [for (const x of xs) f(x)] *)
Fixpoint forEach {A} (xs : list A) (f : A -> M unit) : M unit :=
  match xs with
  | [] => ret tt
  | x :: rest => f x ;; forEach rest f
  end.

(** [f.bind(thisArg, ...args)]: a new function object on every call. *)
Definition bind_fn (f : FnObj) (args : list CleanupListener) : M FnObj :=
  fun s =>
    (Ok (mkFn (next_fn s) (fn_method f) (fn_bound f ++ args)),
     set_next_fn (S (next_fn s)) s).

Definition console_log (msg : string) : M unit :=
  modify (emit_effect (ConsoleLog msg)).

Definition console_error (msg : string) (arg : Error) : M unit :=
  modify (emit_effect (ConsoleError msg arg)).

(** [process.on(e, f)] appends [f] to the handlers of [e]. *)
Definition process_on (e : EventName) (f : FnObj) : M unit :=
  modify (fun s =>
    set_subs (subs s ++ [(e, f)]) (emit_effect (ProcessOn e f) s)).

Definition subscribed_as (e : EventName) (f : FnObj)
                         (x : EventName * FnObj) : bool :=
  event_eqb e (fst x) && same_object f (snd x).

(** Drops the most recently added element that satisfies [p]. *)
Fixpoint remove_last {A} (p : A -> bool) (l : list A) : list A :=
  match l with
  | [] => []
  | x :: rest =>
      if existsb p rest then x :: remove_last p rest
      else if p x then rest else x :: rest
  end.

(** [process.removeListener(e, f)] removes the most recently added
    subscription of the very object [f] to [e], when there is one. *)
Definition process_removeListener (e : EventName) (f : FnObj) : M unit :=
  modify (fun s =>
    set_subs (remove_last (subscribed_as e f) (subs s))
             (emit_effect (ProcessRemoveListener e f) s)).

(** [process.exit(code)]: nothing runs afterwards. *)
Definition process_exit (code : Z) : M unit :=
  modify (fun s => set_exited (Some code) (emit_effect (ProcessExit code) s)).

(** [process.kill(pid, signal)] *)
Definition process_kill (p : nat) (signal : ExitSignal) : M unit :=
  modify (emit_effect (ProcessKill p signal)).

Definition lookup_settled (s : State) (p : PromiseId) : option Settlement :=
  match find (fun x => Nat.eqb p (fst x)) (settled s) with
  | Some x => Some (snd x)
  | None => None
  end.

Definition is_settled (s : State) (p : PromiseId) : bool :=
  match lookup_settled s p with Some _ => true | None => false end.

(** A promise settles once; later attempts change nothing. *)
Definition settle (p : PromiseId) (r : Settlement) (s : State) : State :=
  if is_settled s p then s else set_settled (settled s ++ [(p, r)]) s.

(** The result of [Promise.allSettled(ps)], once every promise of [ps]
    has settled. *)
Definition allSettled_results (s : State) (ps : list PromiseId)
  : list Settlement :=
  map (fun p => match lookup_settled s p with
                | Some r => r
                | None => Fulfilled
                end) ps.

Definition ready (s : State) (fr : Frame) : bool :=
  match fr_await fr with
  | AllSettled ps => forallb (is_settled s) ps
  | _ => true
  end.

Definition push_frame (fr : Frame) (s : State) : State :=
  set_frames (frames s ++ [fr]) s.

(** The state of a process that has subscribed to nothing yet. *)
Definition boot (first_fn own_pid : nat) : State :=
  mkState None first_fn [] [] [] None own_pid [].

End Host.
Import Host.
Local Open Scope js_scope.

(** ** The class [AsyncCleanup] (src/AsyncCleanup.ts) *)

Module AsyncCleanup.

(** [static listenedSignals] *)
Definition listenedSignals : list ExitSignal :=
  [SIGBREAK; SIGHUP; SIGINT; SIGTERM; SIGUSR2].

(** The methods on the prototype are function objects of their own. *)
Definition prototype (m : Method) : FnObj := mkFn (method_index m) m [].

(** The first identity [bind] can hand out once the class is defined. *)
Definition first_free_fn : nat := 11.

(** An instance: the properties the constructor assigns.  A method that is
    not among them is found on the prototype. *)
Definition Instance := list (Method * FnObj).

Definition method_of (this : Instance) (m : Method) : FnObj :=
  match find (fun x => method_eqb m (fst x)) this with
  | Some x => snd x
  | None => prototype m
  end.

(** [this.m = this.m.bind(this)], for each method in the order of the
    constructor. *)
Fixpoint bind_methods (ms : list Method) (this : Instance) : M Instance :=
  match ms with
  | [] => ret this
  | m :: rest =>
      f <- bind_fn (method_of this m) [] ;;
      bind_methods rest ((m, f) :: this)
  end.

Definition constructor : M Instance :=
  bind_methods
    [MAdd; MRemove; MExecuteCleanupListeners; MExitAfterCleanup;
     MKillAfterCleanup; MBeforeExitListener; MUncaughtExceptionListener;
     MSignalListener; MPm2ClusterShutdownListener; MInstallExitListeners;
     MUninstallExitListeners]
    [].

Section Methods.

Variable this : Instance.
Variable behaviour : CleanupListener -> Behaviour.

Definition installExitListeners : M unit :=
  f <- bind_fn (method_of this MBeforeExitListener) [] ;;
  process_on EvBeforeExit f ;;
  f <- bind_fn (method_of this MPm2ClusterShutdownListener) [] ;;
  process_on EvMessage f ;;
  f <- bind_fn (method_of this MUncaughtExceptionListener) [] ;;
  process_on EvUncaughtException f ;;
  forEach listenedSignals (fun signal =>
    f <- bind_fn (method_of this MSignalListener) [] ;;
    process_on (EvSignal signal) f).

Definition uninstallExitListeners : M unit :=
  f <- bind_fn (method_of this MBeforeExitListener) [] ;;
  process_removeListener EvBeforeExit f ;;
  f <- bind_fn (method_of this MPm2ClusterShutdownListener) [] ;;
  process_removeListener EvMessage f ;;
  f <- bind_fn (method_of this MUncaughtExceptionListener) [] ;;
  process_removeListener EvUncaughtException f ;;
  forEach listenedSignals (fun signal =>
    f <- bind_fn (method_of this MSignalListener) [] ;;
    process_removeListener (EvSignal signal) f).

(** [add(listener)]: the result is the remover
    [this.remove.bind(this, listener)]. *)
Definition add (listener : CleanupListener) : M FnObj :=
  cl <- gets cleanupListeners ;;
  match cl with
  | None =>
      installExitListeners ;;
      modify (set_cleanupListeners (Some []))
  | Some _ => ret tt
  end ;;
  modify (fun s =>
    match cleanupListeners s with
    | Some ls => set_cleanupListeners (Some (set_add listener ls)) s
    | None => s
    end) ;;
  bind_fn (method_of this MRemove) [listener].

Definition remove (listener : CleanupListener) : M bool :=
  cl <- gets cleanupListeners ;;
  match cl with
  | None => ret false
  | Some ls =>
      let wasRegistered := set_has listener ls in
      modify (set_cleanupListeners (Some (set_delete listener ls))) ;;
      (if Nat.eqb (List.length (set_delete listener ls)) 0 then
         uninstallExitListeners ;;
         modify (set_cleanupListeners None)
       else ret tt) ;;
      ret wasRegistered
  end.

(** [listener()] *)
Definition call_listener (listener : CleanupListener) : M Value :=
  fun s =>
    let s' := emit_effect (Invoke listener) s in
    match behaviour listener with
    | Returns v => (Ok v, s')
    | Throws err => (Throw err, s')
    end.

(** The loop of [executeCleanupListeners] over the detached set;
    [promises] is the array filled so far. *)
Fixpoint call_listeners (listeners : list CleanupListener)
                        (promises : list PromiseId)
  : M (list PromiseId) :=
  match listeners with
  | [] => ret promises
  | listener :: rest =>
      promises' <-
        try_catch
          (promise <- call_listener listener ;;
           match promise with
           | VPromise p => ret (promises ++ [p])
           | _ => ret promises
           end)
          (fun err =>
             console_error "Uncaught exception during cleanup" err ;;
             ret promises) ;;
      call_listeners rest promises'
  end.

(** [executeCleanupListeners], up to its [await]: the result tells
    whether the call returned at the guard or is suspended on the
    promises collected. *)
Definition executeCleanupListeners : M Await :=
  cl <- gets cleanupListeners ;;
  match cl with
  | None => ret Returned
  | Some listeners =>
      uninstallExitListeners ;;
      modify (set_cleanupListeners None) ;;
      promises <- call_listeners listeners [] ;;
      ret (AllSettled promises)
  end.

(** [executeCleanupListeners], after its [await]: [results] is what
    [Promise.allSettled] produced. *)
Definition log_rejections (results : list Settlement) : M unit :=
  forEach results (fun result =>
    match result with
    | Rejected reason =>
        console_error "Unhandled rejection during cleanup" reason
    | Fulfilled => ret tt
    end).

(** A call of an asynchronous function that awaits
    [executeCleanupListeners()] and then continues with [k]: the part
    before the [await] runs now, the rest is suspended. *)
Definition await_cleanup (k : Continuation) : M unit :=
  fun s =>
    match executeCleanupListeners s with
    | (Ok aw, s') => (Ok tt, push_frame (mkFrame aw k) s')
    | (Throw err, s') => (Ok tt, push_frame (mkFrame (Failed err) k) s')
    end.

(** [exitAfterCleanup(code = 0)] *)
Definition exitAfterCleanup (code : option Z) : M unit :=
  await_cleanup (ThenExit (match code with Some c => c | None => 0%Z end)).

Definition killAfterCleanup (signal : ExitSignal) : M unit :=
  await_cleanup (ThenKill signal).

Definition beforeExitListener (code : Z) : M unit :=
  console_log ("Exiting with code " ++ number_to_string code
               ++ " due to empty event loop")%string ;;
  exitAfterCleanup (Some code).

Definition uncaughtExceptionListener (error : Error) : M unit :=
  console_error "Exiting with code 1 due to uncaught exception" error ;;
  exitAfterCleanup (Some 1%Z).

Definition signalListener (signal : ExitSignal) : M unit :=
  console_log ("Exiting due to signal " ++ signal_name signal)%string ;;
  killAfterCleanup signal.

Definition pm2ClusterShutdownListener (message : string) : M unit :=
  if negb (String.eqb message "shutdown") then ret tt
  else
    console_log "Exiting due to PM2 cluster shutdown" ;;
    killAfterCleanup SIGTERM.

(** *** The event loop *)

(** What the runtime emits on [process]. *)
Inductive Trigger :=
| BeforeExit (code : Z)
| Message (message : string)
| UncaughtException (error : Error)
| Signal (signal : ExitSignal).

Definition event_of (t : Trigger) : EventName :=
  match t with
  | BeforeExit _ => EvBeforeExit
  | Message _ => EvMessage
  | UncaughtException _ => EvUncaughtException
  | Signal s => EvSignal s
  end.

(** The runtime calls a subscribed handler with the argument of the
    event.  The code subscribes each handler to its own event only; the
    other pairings do not arise and do nothing here. *)
Definition call_handler (f : FnObj) (t : Trigger) : M unit :=
  match fn_method f, t with
  | MBeforeExitListener, BeforeExit code => beforeExitListener code
  | MPm2ClusterShutdownListener, Message m => pm2ClusterShutdownListener m
  | MUncaughtExceptionListener, UncaughtException e =>
      uncaughtExceptionListener e
  | MSignalListener, Signal s => signalListener s
  | _, _ => ret tt
  end.

(** [process.emit]: every handler subscribed to the event when it is
    emitted is called, oldest subscription first. *)
Definition emit (t : Trigger) : M unit :=
  fun s =>
    forEach
      (filter (fun x => event_eqb (event_of t) (fst x)) (subs s))
      (fun x => call_handler (snd x) t) s.

(** Resuming a suspended call whose awaited promises have settled: the
    rest of [executeCleanupListeners], then the caller's continuation.
    Had the awaited call failed, the caller would fail with it. *)
Definition resume (fr : Frame) : M unit :=
  fun s =>
    let inner :=
      match fr_await fr with
      | Returned => ret tt
      | Failed err => throw err
      | AllSettled ps => log_rejections (allSettled_results s ps)
      end in
    match inner s with
    | (Ok _, s') =>
        match fr_then fr with
        | ThenExit code => process_exit code s'
        | ThenKill signal => process_kill (pid s') signal s'
        | ThenReturn => (Ok tt, s')
        end
    | (Throw err, s') => (Ok tt, emit_effect (AsyncRejected err) s')
    end.

(** One turn of the job queue: every suspended call that is ready
    resumes, oldest first; the others stay suspended.  Nothing resumes
    once the process has exited. *)
Fixpoint resume_ready (frs : list Frame) (s : State) : State :=
  match frs with
  | [] => s
  | fr :: rest =>
      match exited s with
      | Some _ => s
      | None =>
          if ready s fr then resume_ready rest (snd (resume fr s))
          else resume_ready rest (push_frame fr s)
      end
  end.

Definition tick (s : State) : State :=
  resume_ready (frames s) (set_frames [] s).

(** What can happen to the program: the calls of its interface, the
    events of the runtime, promises that settle, turns of the job
    queue. *)
Inductive Event :=
| CallAdd (l : CleanupListener)
| CallRemove (l : CleanupListener)
| CallRemover (f : FnObj)
| CallExitAfterCleanup (code : option Z)
| CallKillAfterCleanup (signal : ExitSignal)
| Emit (t : Trigger)
| Settle (p : PromiseId) (r : Settlement)
| Tick.

Definition step (ev : Event) (s : State) : State :=
  match exited s with
  | Some _ => s
  | None =>
      match ev with
      | CallAdd l => snd (add l s)
      | CallRemove l => snd (remove l s)
      | CallRemover f =>
          match fn_method f, fn_bound f with
          | MRemove, l :: _ => snd (remove l s)
          | _, _ => s
          end
      | CallExitAfterCleanup code => snd (exitAfterCleanup code s)
      | CallKillAfterCleanup signal => snd (killAfterCleanup signal s)
      | Emit t => snd (emit t s)
      | Settle p r => settle p r s
      | Tick => tick s
      end
  end.

Definition run (evs : list Event) (s : State) : State :=
  fold_left (fun s ev => step ev s) evs s.

End Methods.

End AsyncCleanup.

(** ** The singleton of src/index.ts *)

Module Index.

Record Exports := mkExports {
  addCleanupListener : FnObj;
  removeCleanupListener : FnObj;
  exitAfterCleanup : FnObj;
  killAfterCleanup : FnObj
}.

(** Evaluating the module: [new AsyncCleanup()], then one [bind] per
    export. *)
Definition load : M (AsyncCleanup.Instance * Exports) :=
  asyncCleanup <- AsyncCleanup.constructor ;;
  a <- bind_fn (AsyncCleanup.method_of asyncCleanup MAdd) [] ;;
  r <- bind_fn (AsyncCleanup.method_of asyncCleanup MRemove) [] ;;
  e <- bind_fn (AsyncCleanup.method_of asyncCleanup MExitAfterCleanup) [] ;;
  k <- bind_fn (AsyncCleanup.method_of asyncCleanup MKillAfterCleanup) [] ;;
  ret (asyncCleanup, mkExports a r e k).

Definition asyncCleanup : AsyncCleanup.Instance :=
  match fst (load (boot AsyncCleanup.first_free_fn 0)) with
  | Ok (i, _) => i
  | Throw _ => []
  end.

(** The state of the process once the module is loaded. *)
Definition init (own_pid : nat) : State :=
  snd (load (boot AsyncCleanup.first_free_fn own_pid)).

End Index.


(** ** The module-level implementation with free functions *)

Module FreeFunctions.

Definition listenedSignals : list ExitSignal :=
  [SIGBREAK; SIGHUP; SIGINT; SIGTERM; SIGUSR2].

(** A function declaration is one object for the life of the module. *)
Definition fn (m : Method) : FnObj := mkFn (method_index m) m [].

Definition first_free_fn : nat := 11.

Definition installExitListeners : M unit :=
  process_on EvBeforeExit (fn MBeforeExitListener) ;;
  process_on EvMessage (fn MPm2ClusterShutdownListener) ;;
  process_on EvUncaughtException (fn MUncaughtExceptionListener) ;;
  forEach listenedSignals (fun signal =>
    process_on (EvSignal signal) (fn MSignalListener)).

Definition uninstallExitListeners : M unit :=
  process_removeListener EvBeforeExit (fn MBeforeExitListener) ;;
  process_removeListener EvMessage (fn MPm2ClusterShutdownListener) ;;
  process_removeListener EvUncaughtException
                         (fn MUncaughtExceptionListener) ;;
  forEach listenedSignals (fun signal =>
    process_removeListener (EvSignal signal) (fn MSignalListener)).

(** [addCleanupListener(listener): void] *)
Definition addCleanupListener (listener : CleanupListener) : M unit :=
  cl <- gets cleanupListeners ;;
  match cl with
  | None =>
      installExitListeners ;;
      modify (set_cleanupListeners (Some []))
  | Some _ => ret tt
  end ;;
  modify (fun s =>
    match cleanupListeners s with
    | Some ls => set_cleanupListeners (Some (set_add listener ls)) s
    | None => s
    end).

Definition removeCleanupListener (listener : CleanupListener) : M bool :=
  cl <- gets cleanupListeners ;;
  match cl with
  | None => ret false
  | Some ls =>
      modify (set_cleanupListeners (Some (set_delete listener ls))) ;;
      ret (set_has listener ls)
  end.

Definition init (own_pid : nat) : State := boot first_free_fn own_pid.

Section Functions.

Variable behaviour : CleanupListener -> Behaviour.

(** [listener()] *)
Definition call_listener (listener : CleanupListener) : M Value :=
  fun s =>
    let s' := emit_effect (Invoke listener) s in
    match behaviour listener with
    | Returns v => (Ok v, s')
    | Throws err => (Throw err, s')
    end.

(** The loop of [executeCleanupListeners]; [promises] is the array filled so
    far. *)
Fixpoint call_listeners (listeners : list CleanupListener)
                        (promises : list PromiseId)
  : M (list PromiseId) :=
  match listeners with
  | [] => ret promises
  | listener :: rest =>
      promises' <-
        try_catch
          (promise <- call_listener listener ;;
           match promise with
           | VPromise p => ret (promises ++ [p])
           | _ => ret promises
           end)
          (fun err =>
             console_error "Uncaught exception during cleanup" err ;;
             ret promises) ;;
      call_listeners rest promises'
  end.

(** [executeCleanupListeners], up to its [await]. *)
Definition executeCleanupListeners : M Await :=
  cl <- gets cleanupListeners ;;
  match cl with
  | None => ret Returned
  | Some listeners =>
      uninstallExitListeners ;;
      modify (set_cleanupListeners None) ;;
      promises <- call_listeners listeners [] ;;
      ret (AllSettled promises)
  end.

(** [executeCleanupListeners], after its [await]. *)
Definition log_rejections (results : list Settlement) : M unit :=
  forEach results (fun result =>
    match result with
    | Rejected reason =>
        console_error "Unhandled rejection during cleanup" reason
    | Fulfilled => ret tt
    end).

(** The part of [exitAfterCleanup] and [killAfterCleanup] before their
    [await executeCleanupListeners()]; [k] is what follows it. *)
Definition await_cleanup (k : Continuation) : M unit :=
  fun s =>
    match executeCleanupListeners s with
    | (Ok aw, s') => (Ok tt, push_frame (mkFrame aw k) s')
    | (Throw err, s') => (Ok tt, push_frame (mkFrame (Failed err) k) s')
    end.

(** [exitAfterCleanup(code = 0)] *)
Definition exitAfterCleanup (code : option Z) : M unit :=
  await_cleanup (ThenExit (match code with Some c => c | None => 0%Z end)).

Definition killAfterCleanup (signal : ExitSignal) : M unit :=
  await_cleanup (ThenKill signal).

Definition beforeExitListener (code : Z) : M unit :=
  console_log ("Exiting with code " ++ number_to_string code
               ++ " due to empty event loop")%string ;;
  exitAfterCleanup (Some code).

Definition uncaughtExceptionListener (error : Error) : M unit :=
  console_error "Exiting with code 1 due to uncaught exception" error ;;
  exitAfterCleanup (Some 1%Z).

Definition signalListener (signal : ExitSignal) : M unit :=
  console_log ("Exiting due to signal " ++ signal_name signal)%string ;;
  killAfterCleanup signal.

Definition pm2ClusterShutdownListener (message : string) : M unit :=
  if negb (String.eqb message "shutdown") then ret tt
  else
    console_log "Exiting due to PM2 cluster shutdown" ;;
    killAfterCleanup SIGTERM.

(** The runtime calls a subscribed function with the argument of the event;
    as in the class, each function is subscribed to its own event only. *)
Definition call_handler (f : FnObj) (t : AsyncCleanup.Trigger) : M unit :=
  match fn_method f, t with
  | MBeforeExitListener, AsyncCleanup.BeforeExit code =>
      beforeExitListener code
  | MPm2ClusterShutdownListener, AsyncCleanup.Message m =>
      pm2ClusterShutdownListener m
  | MUncaughtExceptionListener, AsyncCleanup.UncaughtException e =>
      uncaughtExceptionListener e
  | MSignalListener, AsyncCleanup.Signal s => signalListener s
  | _, _ => ret tt
  end.

Definition emit (t : AsyncCleanup.Trigger) : M unit :=
  fun s =>
    forEach
      (filter (fun x => event_eqb (AsyncCleanup.event_of t) (fst x)) (subs s))
      (fun x => call_handler (snd x) t) s.

(** Resuming a suspended call: the rest of [executeCleanupListeners], then
    [process.exit(code)] or [process.kill(process.pid, signal)]. *)
Definition resume (fr : Frame) : M unit :=
  fun s =>
    let inner :=
      match fr_await fr with
      | Returned => ret tt
      | Failed err => throw err
      | AllSettled ps => log_rejections (allSettled_results s ps)
      end in
    match inner s with
    | (Ok _, s') =>
        match fr_then fr with
        | ThenExit code => process_exit code s'
        | ThenKill signal => process_kill (pid s') signal s'
        | ThenReturn => (Ok tt, s')
        end
    | (Throw err, s') => (Ok tt, emit_effect (AsyncRejected err) s')
    end.

Fixpoint resume_ready (frs : list Frame) (s : State) : State :=
  match frs with
  | [] => s
  | fr :: rest =>
      match exited s with
      | Some _ => s
      | None =>
          if ready s fr then resume_ready rest (snd (resume fr s))
          else resume_ready rest (push_frame fr s)
      end
  end.

Definition tick (s : State) : State :=
  resume_ready (frames s) (set_frames [] s).

(** The events of the class, on the free functions.  [addCleanupListener]
    returns nothing here, so there is no remover to call. *)
Definition step (ev : AsyncCleanup.Event) (s : State) : State :=
  match exited s with
  | Some _ => s
  | None =>
      match ev with
      | AsyncCleanup.CallAdd l => snd (addCleanupListener l s)
      | AsyncCleanup.CallRemove l => snd (removeCleanupListener l s)
      | AsyncCleanup.CallRemover _ => s
      | AsyncCleanup.CallExitAfterCleanup code =>
          snd (exitAfterCleanup code s)
      | AsyncCleanup.CallKillAfterCleanup signal =>
          snd (killAfterCleanup signal s)
      | AsyncCleanup.Emit t => snd (emit t s)
      | AsyncCleanup.Settle p r => settle p r s
      | AsyncCleanup.Tick => tick s
      end
  end.

Definition run (evs : list AsyncCleanup.Event) (s : State) : State :=
  fold_left (fun s ev => step ev s) evs s.

End Functions.

End FreeFunctions.

(** ** Observations used in the statements *)

Module Obs.

(** The listeners invoked so far, in order. *)
Definition invoked (s : State) : list CleanupListener :=
  flat_map (fun e => match e with Invoke l => [l] | _ => [] end) (trace s).

(** The listeners invoked between [s] and a later state [s']. *)
Definition invoked_since (s s' : State) : list CleanupListener :=
  skipn (List.length (invoked s)) (invoked s').

(** The effects between [s] and a later state [s']. *)
Definition trace_since (s s' : State) : list Effect :=
  skipn (List.length (trace s)) (trace s').

(** The elements of the registry; none when it is uninitialized. *)
Definition registered (s : State) : list CleanupListener :=
  match cleanupListeners s with
  | Some ls => ls
  | None => []
  end.

Definition is_registered (l : CleanupListener) (s : State) : bool :=
  set_has l (registered s).

(** The registry holds no listener twice. *)
Definition distinct (s : State) : Prop := NoDup (registered s).

(** Every subscribed function object was allocated before [next_fn]. *)
Definition allocated (s : State) : Prop :=
  Forall (fun x => fn_id (snd x) < next_fn s) (subs s).

(** What calling one listener adds to the trace. *)
Definition listener_effects (behaviour : CleanupListener -> Behaviour)
                            (l : CleanupListener) : list Effect :=
  Invoke l ::
  match behaviour l with
  | Throws err => [ConsoleError "Uncaught exception during cleanup" err]
  | Returns _ => []
  end.

(** The promises the listeners of [ls] return, in order. *)
Definition collected (behaviour : CleanupListener -> Behaviour)
                     (ls : list CleanupListener) : list PromiseId :=
  flat_map (fun l => match behaviour l with
                     | Returns (VPromise p) => [p]
                     | _ => []
                     end) ls.

(** One log line per rejected promise of [ps], in order. *)
Definition rejection_log (s : State) (ps : list PromiseId) : list Effect :=
  flat_map (fun p => match lookup_settled s p with
                     | Some (Rejected reason) =>
                         [ConsoleError "Unhandled rejection during cleanup"
                                       reason]
                     | _ => []
                     end) ps.

Definition all_settled (s : State) (ps : list PromiseId) : bool :=
  forallb (is_settled s) ps.

Definition terminal_effects (own_pid : nat) (k : Continuation)
  : list Effect :=
  match k with
  | ThenExit code => [ProcessExit code]
  | ThenKill signal => [ProcessKill own_pid signal]
  | ThenReturn => []
  end.

(** The [removeListener] calls of one [uninstallExitListeners] of the class,
    whose first [bind] allocates [n]. *)
Definition teardown_calls (this : AsyncCleanup.Instance) (n : nat)
  : list Effect :=
  [ProcessRemoveListener EvBeforeExit
     (mkFn n (fn_method (AsyncCleanup.method_of this MBeforeExitListener))
           (fn_bound (AsyncCleanup.method_of this MBeforeExitListener) ++ []));
   ProcessRemoveListener EvMessage
     (mkFn (1 + n)
        (fn_method (AsyncCleanup.method_of this MPm2ClusterShutdownListener))
        (fn_bound (AsyncCleanup.method_of this MPm2ClusterShutdownListener)
         ++ []));
   ProcessRemoveListener EvUncaughtException
     (mkFn (2 + n)
        (fn_method (AsyncCleanup.method_of this MUncaughtExceptionListener))
        (fn_bound (AsyncCleanup.method_of this MUncaughtExceptionListener)
         ++ []))]
  ++ map (fun x =>
       ProcessRemoveListener (EvSignal (snd x))
         (mkFn (fst x + n)
            (fn_method (AsyncCleanup.method_of this MSignalListener))
            (fn_bound (AsyncCleanup.method_of this MSignalListener) ++ [])))
     [(3, SIGBREAK); (4, SIGHUP); (5, SIGINT); (6, SIGTERM); (7, SIGUSR2)].

(** The subscriptions left by the [removeListener] calls of [es]. *)
Definition unsubscribe (sb : list (EventName * FnObj)) (e : Effect)
  : list (EventName * FnObj) :=
  match e with
  | ProcessRemoveListener ev f => remove_last (subscribed_as ev f) sb
  | _ => sb
  end.

Definition after_teardown (this : AsyncCleanup.Instance) (n : nat)
                          (sb : list (EventName * FnObj))
  : list (EventName * FnObj) :=
  fold_left unsubscribe (teardown_calls this n) sb.

(** The state in which [executeCleanupListeners] suspends when it finds the
    listeners [ls] in state [s]. *)
Definition suspended (this : AsyncCleanup.Instance)
                     (behaviour : CleanupListener -> Behaviour)
                     (ls : list CleanupListener) (s : State) : State :=
  mkState None (8 + next_fn s) (after_teardown this (next_fn s) (subs s))
          (settled s) (frames s) (exited s) (pid s)
          (trace s ++ teardown_calls this (next_fn s)
                   ++ flat_map (listener_effects behaviour) ls).

(** The subscriptions one [installExitListeners] of the class adds when its
    first [bind] allocates [n]. *)
Definition installed_handlers (this : AsyncCleanup.Instance) (n : nat)
  : list (EventName * FnObj) :=
  [(EvBeforeExit,
    mkFn n (fn_method (AsyncCleanup.method_of this MBeforeExitListener))
         (fn_bound (AsyncCleanup.method_of this MBeforeExitListener) ++ []));
   (EvMessage,
    mkFn (1 + n)
      (fn_method (AsyncCleanup.method_of this MPm2ClusterShutdownListener))
      (fn_bound (AsyncCleanup.method_of this MPm2ClusterShutdownListener)
       ++ []));
   (EvUncaughtException,
    mkFn (2 + n)
      (fn_method (AsyncCleanup.method_of this MUncaughtExceptionListener))
      (fn_bound (AsyncCleanup.method_of this MUncaughtExceptionListener)
       ++ []))]
  ++ map (fun x =>
       (EvSignal (snd x),
        mkFn (fst x + n)
          (fn_method (AsyncCleanup.method_of this MSignalListener))
          (fn_bound (AsyncCleanup.method_of this MSignalListener) ++ [])))
     [(3, SIGBREAK); (4, SIGHUP); (5, SIGINT); (6, SIGTERM); (7, SIGUSR2)].

(** What the part of [executeCleanupListeners] before its [await] adds to
    the trace in state [s]. *)
Definition cleanup_effects (this : AsyncCleanup.Instance)
                           (behaviour : CleanupListener -> Behaviour)
                           (s : State)
  : list Effect :=
  match cleanupListeners s with
  | Some ls => teardown_calls this (next_fn s)
               ++ flat_map (listener_effects behaviour) ls
  | None => []
  end.

(** Either nothing was invoked between [s] and [s'] and the registry is
    the same, or the listeners registered in [s] were invoked, once each and
    in order, and the registry is uninitialized. *)
Definition cleanup_or_nothing (s s' : State) : Prop :=
  (cleanupListeners s' = cleanupListeners s /\ invoked s' = invoked s) \/
  (exists ls, cleanupListeners s = Some ls /\ cleanupListeners s' = None /\
              invoked s' = invoked s ++ ls).

(** The exit code a continuation leaves, if it exits. *)
Definition exit_code (k : Continuation) : option Z :=
  match k with
  | ThenExit code => Some code
  | _ => None
  end.

Definition awaited (a : Await) : list PromiseId :=
  match a with
  | AllSettled ps => ps
  | _ => []
  end.

(** A call suspended in [s1] as the frame [fr] is, in the later state [s2],
    still suspended, and nothing was done since. *)
Definition still_waiting (s1 : State) (fr : Frame) (s2 : State) : Prop :=
  exited s2 = None /\ frames s2 = [fr] /\ trace s2 = trace s1 /\
  subs s2 = subs s1 /\ pid s2 = pid s1.

(** The call suspended in [s1] as the frame [fr] has finished in [s2]: the
    promises it awaited have all settled, each rejection among them was
    logged, and the continuation has run. *)
Definition finished (s1 : State) (fr : Frame) (s2 : State) : Prop :=
  all_settled s2 (awaited (fr_await fr)) = true /\ frames s2 = [] /\
  trace s2 = trace s1 ++ rejection_log s2 (awaited (fr_await fr))
                      ++ terminal_effects (pid s1) (fr_then fr) /\
  exited s2 = exit_code (fr_then fr) /\
  subs s2 = subs s1 /\ pid s2 = pid s1.

Definition is_teardown (e : Effect) : bool :=
  match e with
  | ProcessRemoveListener _ _ => true
  | _ => false
  end.

(** The events that neither call the program nor emit anything: promises
    settling and turns of the job queue. *)
Definition passive (ev : AsyncCleanup.Event) : bool :=
  match ev with
  | AsyncCleanup.Settle _ _ | AsyncCleanup.Tick => true
  | _ => false
  end.

(** The events that leave the registry to the triggers: everything but
    calls of [add], [remove] and of a remover. *)
Definition no_registry_call (ev : AsyncCleanup.Event) : bool :=
  match ev with
  | AsyncCleanup.CallAdd _ | AsyncCleanup.CallRemove _
  | AsyncCleanup.CallRemover _ => false
  | _ => true
  end.

(** [x] is a subscription whose handler reaches the cleanup when [t] is
    emitted. *)
Definition handles (t : AsyncCleanup.Trigger) (x : EventName * FnObj)
  : bool :=
  event_eqb (AsyncCleanup.event_of t) (fst x) &&
  match fn_method (snd x), t with
  | MBeforeExitListener, AsyncCleanup.BeforeExit _ => true
  | MPm2ClusterShutdownListener, AsyncCleanup.Message m =>
      String.eqb m "shutdown"
  | MUncaughtExceptionListener, AsyncCleanup.UncaughtException _ => true
  | MSignalListener, AsyncCleanup.Signal _ => true
  | _, _ => false
  end.

(** The event starts the cleanup execution in state [s]. *)
Definition fires (s : State) (ev : AsyncCleanup.Event) : bool :=
  match ev with
  | AsyncCleanup.CallExitAfterCleanup _
  | AsyncCleanup.CallKillAfterCleanup _ => true
  | AsyncCleanup.Emit t => existsb (handles t) (subs s)
  | _ => false
  end.

(** The events a subscription of the code may name. *)
Definition intercepted (e : EventName) : bool :=
  match e with
  | EvBeforeExit | EvMessage | EvUncaughtException => true
  | EvSignal s => existsb (signal_eqb s) AsyncCleanup.listenedSignals
  end.

(** *** The two implementations at their interface *)

Inductive Op :=
| OpAdd (l : CleanupListener)
| OpRemove (l : CleanupListener).

Definition value_of {A} (f : A -> Value) (r : Result A) : Value :=
  match r with
  | Ok a => f a
  | Throw _ => VUndefined
  end.

Definition class_call (this : AsyncCleanup.Instance) (op : Op) (s : State)
  : Value * State :=
  match op with
  | OpAdd l => (value_of VFunction (fst (AsyncCleanup.add this l s)),
                snd (AsyncCleanup.add this l s))
  | OpRemove l => (value_of VBool (fst (AsyncCleanup.remove this l s)),
                   snd (AsyncCleanup.remove this l s))
  end.

Definition free_call (op : Op) (s : State) : Value * State :=
  match op with
  | OpAdd l =>
      (value_of (fun _ : unit => VUndefined)
                (fst (FreeFunctions.addCleanupListener l s)),
       snd (FreeFunctions.addCleanupListener l s))
  | OpRemove l =>
      (value_of VBool (fst (FreeFunctions.removeCleanupListener l s)),
       snd (FreeFunctions.removeCleanupListener l s))
  end.

(** The results of a sequence of calls, and the state it leaves. *)
Fixpoint calls (call : Op -> State -> Value * State) (ops : list Op)
               (s : State) : list Value * State :=
  match ops with
  | [] => ([], s)
  | op :: rest =>
      let r := call op s in
      let rs := calls call rest (snd r) in
      (fst r :: fst rs, snd rs)
  end.

Inductive Kind := KUndefined | KBoolean | KFunction | KPromise.

Definition kind_of (v : Value) : Kind :=
  match v with
  | VUndefined => KUndefined
  | VBool _ => KBoolean
  | VFunction _ => KFunction
  | VPromise _ => KPromise
  end.

(** Some handler is subscribed on [process]. *)
Definition intercepting (s : State) : bool :=
  match subs s with
  | [] => false
  | _ :: _ => true
  end.

(** The two implementations agree on what a sequence of calls returns, up to
    the identity of function objects, and on whether triggers are
    intercepted afterwards. *)
Definition same_interface (this : AsyncCleanup.Instance) (ops : list Op)
  : Prop :=
  let c := calls (class_call this) ops (Index.init 0) in
  let f := calls free_call ops (FreeFunctions.init 0) in
  map kind_of (fst c) = map kind_of (fst f) /\
  (forall i b, nth_error (fst c) i = Some (VBool b) ->
               nth_error (fst f) i = Some (VBool b)) /\
  intercepting (snd c) = intercepting (snd f).

(** What the results of one call to each implementation have in common: the
    same boolean from a removal; a remover of the listener from the class
    where the free function returns nothing. *)
Definition agree (op : Op) (c f : Value) : Prop :=
  match op with
  | OpAdd l =>
      (exists h, c = VFunction h /\ fn_method h = MRemove /\
                 exists rest, fn_bound h = rest ++ [l]) /\ f = VUndefined
  | OpRemove _ => exists b, c = VBool b /\ f = VBool b
  end.

Fixpoint agree_all (ops : list Op) (cs fs : list Value) : Prop :=
  match ops, cs, fs with
  | [], [], [] => True
  | op :: ops', c :: cs', f :: fs' => agree op c f /\ agree_all ops' cs' fs'
  | _, _, _ => False
  end.

(** The subscriptions of [s'] are those of [s], and no function object was
    forgotten. *)
Definition keeps_subs (s s' : State) : Prop :=
  next_fn s <= next_fn s' /\ subs s' = subs s.

(** The subscriptions of [s'] are those of [s], or those and the handlers of
    one more [installExitListeners]. *)
Definition grows_subs (this : AsyncCleanup.Instance) (s s' : State) : Prop :=
  keeps_subs s s' \/
  (8 + next_fn s <= next_fn s' /\
   subs s' = subs s ++ installed_handlers this (next_fn s)).

(** What holds in every state the program reaches: subscribed function
    objects are allocated ones, the registry holds no listener twice, and
    only intercepted events are subscribed to. *)
Definition invariant (s : State) : Prop :=
  allocated s /\ distinct s /\
  Forall (fun x => intercepted (fst x) = true) (subs s).

End Obs.
Import Obs.

(** ** A run used to exercise the statements *)

Module Scenario.

(** CleanupListener 1 throws, listeners 2 and 3 are asynchronous, the others
    return nothing. *)
Definition behaviour (l : CleanupListener) : Behaviour :=
  match l with
  | 1 => Throws "boom"%string
  | 2 => Returns (VPromise 20)
  | 3 => Returns (VPromise 30)
  | _ => Returns VUndefined
  end.

Definition fresh : State := Index.init 4242.

(** Three listeners registered on the singleton. *)
Definition active : State :=
  AsyncCleanup.run Index.asyncCleanup behaviour
    [AsyncCleanup.CallAdd 1; AsyncCleanup.CallAdd 2; AsyncCleanup.CallAdd 3]
    fresh.

(** A second trigger, an uncaught error and the settlements arriving while
    the cleanup started by a first trigger is under way. *)
Definition aftermath : list AsyncCleanup.Event :=
  [AsyncCleanup.Emit (AsyncCleanup.Signal SIGTERM);
   AsyncCleanup.Tick;
   AsyncCleanup.Settle 30 (Rejected "lost connection"%string);
   AsyncCleanup.Emit (AsyncCleanup.UncaughtException "late"%string);
   AsyncCleanup.Tick;
   AsyncCleanup.Settle 20 Fulfilled;
   AsyncCleanup.Tick].

(** The settlements alone. *)
Definition settlements : list AsyncCleanup.Event :=
  [AsyncCleanup.Settle 30 (Rejected "lost connection"%string);
   AsyncCleanup.Tick;
   AsyncCleanup.Settle 20 Fulfilled].

End Scenario.

(** ** Observations on the rest of the code *)

Module Cover.

(** Every method found on the instance is a function object that runs that
    method and has no argument bound. *)
Definition bound_instance (this : AsyncCleanup.Instance) : Prop :=
  forall m, fn_method (AsyncCleanup.method_of this m) = m /\
            fn_bound (AsyncCleanup.method_of this m) = [].

(** What the runtime's event [t] is meant to reach in the class: the
    handler of its row of the trigger table; a signal outside
    [listenedSignals] reaches nothing. *)
Definition handler (this : AsyncCleanup.Instance)
                   (behaviour : CleanupListener -> Behaviour)
                   (t : AsyncCleanup.Trigger) : M unit :=
  match t with
  | AsyncCleanup.BeforeExit code =>
      AsyncCleanup.beforeExitListener this behaviour code
  | AsyncCleanup.Message m =>
      AsyncCleanup.pm2ClusterShutdownListener this behaviour m
  | AsyncCleanup.UncaughtException e =>
      AsyncCleanup.uncaughtExceptionListener this behaviour e
  | AsyncCleanup.Signal sg =>
      if existsb (signal_eqb sg) AsyncCleanup.listenedSignals
      then AsyncCleanup.signalListener this behaviour sg
      else ret tt
  end.

(** No promise of [ps] is settled by the events [evs]. *)
Definition never_settles (p : PromiseId) (evs : list AsyncCleanup.Event)
  : bool :=
  forallb (fun ev => match ev with
                     | AsyncCleanup.Settle q _ => negb (Nat.eqb p q)
                     | _ => true
                     end) evs.

(** The eight subscriptions of the free functions. *)
Definition free_handlers : list (EventName * FnObj) :=
  [(EvBeforeExit, FreeFunctions.fn MBeforeExitListener);
   (EvMessage, FreeFunctions.fn MPm2ClusterShutdownListener);
   (EvUncaughtException, FreeFunctions.fn MUncaughtExceptionListener);
   (EvSignal SIGBREAK, FreeFunctions.fn MSignalListener);
   (EvSignal SIGHUP, FreeFunctions.fn MSignalListener);
   (EvSignal SIGINT, FreeFunctions.fn MSignalListener);
   (EvSignal SIGTERM, FreeFunctions.fn MSignalListener);
   (EvSignal SIGUSR2, FreeFunctions.fn MSignalListener)].

(** The [removeListener] calls of [uninstallExitListeners] of the free
    functions, and the subscriptions they leave. *)
Definition free_teardown_calls : list Effect :=
  map (fun x => ProcessRemoveListener (fst x) (snd x)) free_handlers.

Definition free_after_teardown (sb : list (EventName * FnObj))
  : list (EventName * FnObj) :=
  fold_left unsubscribe free_teardown_calls sb.

(** The state in which [executeCleanupListeners] of the free functions
    suspends when it finds the listeners [ls] in state [s]. *)
Definition free_suspended (behaviour : CleanupListener -> Behaviour)
                          (ls : list CleanupListener) (s : State) : State :=
  mkState None (next_fn s) (free_after_teardown (subs s))
          (settled s) (frames s) (exited s) (pid s)
          (trace s ++ free_teardown_calls
                   ++ flat_map (listener_effects behaviour) ls).

(** What the runtime's event [t] is meant to reach in the free functions. *)
Definition free_handler (behaviour : CleanupListener -> Behaviour)
                        (t : AsyncCleanup.Trigger) : M unit :=
  match t with
  | AsyncCleanup.BeforeExit code =>
      FreeFunctions.beforeExitListener behaviour code
  | AsyncCleanup.Message m =>
      FreeFunctions.pm2ClusterShutdownListener behaviour m
  | AsyncCleanup.UncaughtException e =>
      FreeFunctions.uncaughtExceptionListener behaviour e
  | AsyncCleanup.Signal sg =>
      if existsb (signal_eqb sg) FreeFunctions.listenedSignals
      then FreeFunctions.signalListener behaviour sg
      else ret tt
  end.

(** With the free functions, the handlers are subscribed exactly while
    [cleanupListeners] is defined, once each. *)
Definition free_invariant (s : State) : Prop :=
  distinct s /\
  ((cleanupListeners s = None /\ subs s = []) \/
   (cleanupListeners s <> None /\ subs s = free_handlers)).

(** The effects other than subscribing and unsubscribing. *)
Definition observable (e : Effect) : bool :=
  match e with
  | ProcessOn _ _ | ProcessRemoveListener _ _ => false
  | _ => true
  end.





End Cover.
Import Cover.

(** ** The monad, lists, sets and subscriptions *)

Lemma bind_eq {A B} (m : M A) (k : A -> M B) s :
  bind m k s = match m s with
               | (Ok a, s') => k a s'
               | (Throw e, s') => (Throw e, s')
               end.
Proof. reflexivity. Qed.

Lemma gets_eq {A} (f : State -> A) s : gets f s = (Ok (f s), s).
Proof. reflexivity. Qed.

Lemma modify_eq (f : State -> State) s : modify f s = (Ok tt, f s).
Proof. reflexivity. Qed.

Lemma ret_eq {A} (a : A) s : ret a s = (Ok a, s).
Proof. reflexivity. Qed.

(** The bodies of the four handlers, down to the call that awaits the
    cleanup. *)
Ltac unfold_handlers :=
  unfold AsyncCleanup.beforeExitListener,
    AsyncCleanup.uncaughtExceptionListener, AsyncCleanup.signalListener,
    AsyncCleanup.pm2ClusterShutdownListener, AsyncCleanup.exitAfterCleanup,
    AsyncCleanup.killAfterCleanup, bind, console_log, console_error, modify.

(** Runs a sequence of commands as far as its primitives go. *)
Ltac run_bind :=
  repeat first [ rewrite bind_eq | rewrite gets_eq | rewrite modify_eq
               | rewrite ret_eq | progress cbv beta iota ].

Lemma remove_last_none {A} (p : A -> bool) (l : list A) :
  existsb p l = false -> remove_last p l = l.
Proof.
  induction l as [|a l IH]; simpl; intros H; [reflexivity|].
  apply orb_false_iff in H. destruct H as [Ha Hl].
  now rewrite Hl, Ha.
Qed.

Lemma unsubscribe_fresh n sb e f :
  Forall (fun x => fn_id (snd x) < n) sb -> n <= fn_id f ->
  remove_last (subscribed_as e f) sb = sb.
Proof.
  intros Hall Hn. apply remove_last_none.
  induction Hall as [|x sb Hx _ IH]; simpl; [reflexivity|].
  rewrite IH, orb_false_r. unfold subscribed_as, same_object.
  replace (fn_id f =? fn_id (snd x)) with false.
  - apply andb_false_r.
  - symmetry. apply Nat.eqb_neq. lia.
Qed.

Lemma after_teardown_fresh this n sb :
  Forall (fun x => fn_id (snd x) < n) sb -> after_teardown this n sb = sb.
Proof.
  intros H. unfold after_teardown, teardown_calls. simpl.
  repeat (rewrite (unsubscribe_fresh n sb) by (assumption || (simpl; lia))).
  reflexivity.
Qed.

Lemma set_has_delete l ls : set_has l (set_delete l ls) = false.
Proof.
  unfold set_has, set_delete. induction ls as [|x ls IH]; [reflexivity|].
  cbn [filter]. destruct (Nat.eqb l x) eqn:E; cbn [negb]; [exact IH|].
  cbn [existsb]. now rewrite E, IH.
Qed.

Lemma set_has_In l ls : set_has l ls = true <-> In l ls.
Proof.
  unfold set_has. rewrite existsb_exists. split.
  - intros (x & Hin & Hx). apply Nat.eqb_eq in Hx. now subst.
  - intros H. exists l. split; [assumption|apply Nat.eqb_refl].
Qed.

Lemma set_add_has l ls : set_has l (set_add l ls) = true.
Proof.
  unfold set_add. destruct (set_has l ls) eqn:H; [exact H|].
  apply set_has_In, in_or_app. right. now left.
Qed.

Lemma set_add_idempotent l ls : set_add l (set_add l ls) = set_add l ls.
Proof. unfold set_add at 1. now rewrite set_add_has. Qed.

Lemma set_add_NoDup l ls : NoDup ls -> NoDup (set_add l ls).
Proof.
  intros H. unfold set_add. destruct (set_has l ls) eqn:E; [assumption|].
  apply NoDup_app; [assumption|repeat constructor; intros []|].
  intros x Hin [Hx|[]]. subst x.
  apply set_has_In in Hin. congruence.
Qed.

Lemma set_delete_NoDup l ls : NoDup ls -> NoDup (set_delete l ls).
Proof. apply NoDup_filter. Qed.

(** ** The methods of the class, as equations on the state *)

Section ClassProperties.
Variable this : AsyncCleanup.Instance.
Variable behaviour : CleanupListener -> Behaviour.

Lemma uninstall_eq s :
  AsyncCleanup.uninstallExitListeners this s =
  (Ok tt,
   mkState (cleanupListeners s) (8 + next_fn s)
           (after_teardown this (next_fn s) (subs s))
           (settled s) (frames s) (exited s) (pid s)
           (trace s ++ teardown_calls this (next_fn s))).
Proof.
  destruct s. unfold after_teardown, teardown_calls.
  cbv [AsyncCleanup.uninstallExitListeners AsyncCleanup.listenedSignals
       forEach bind bind_fn process_removeListener modify emit_effect ret
       set_subs set_trace set_next_fn
       cleanupListeners next_fn subs settled frames exited pid trace
       fold_left unsubscribe map fst snd Nat.add].
  rewrite <- !app_assoc. reflexivity.
Qed.

Lemma call_listeners_eq ls : forall acc s,
  AsyncCleanup.call_listeners behaviour ls acc s =
  (Ok (acc ++ collected behaviour ls),
   set_trace (trace s ++ flat_map (listener_effects behaviour) ls) s).
Proof.
  induction ls as [|l ls IH]; intros acc s.
  - simpl. rewrite !app_nil_r. destruct s; reflexivity.
  - cbn [AsyncCleanup.call_listeners]. unfold bind at 1.
    unfold try_catch, bind, AsyncCleanup.call_listener, listener_effects,
      collected.
    cbn [flat_map]. fold (collected behaviour ls).
    destruct (behaviour l) as [v|err].
    + destruct v; unfold ret; rewrite IH; destruct s; cbn;
        rewrite <- ?app_assoc; reflexivity.
    + unfold console_error, modify, ret. rewrite IH. destruct s; cbn.
      rewrite <- ?app_assoc. reflexivity.
Qed.

Lemma executeCleanupListeners_none s :
  cleanupListeners s = None ->
  AsyncCleanup.executeCleanupListeners this behaviour s = (Ok Returned, s).
Proof.
  intros H. unfold AsyncCleanup.executeCleanupListeners, bind, gets.
  now rewrite H.
Qed.

Lemma executeCleanupListeners_some s ls :
  cleanupListeners s = Some ls ->
  AsyncCleanup.executeCleanupListeners this behaviour s =
  (Ok (AllSettled (collected behaviour ls)), suspended this behaviour ls s).
Proof.
  intros H. unfold AsyncCleanup.executeCleanupListeners, bind, gets.
  rewrite H, uninstall_eq. unfold modify. rewrite call_listeners_eq.
  unfold suspended, ret. cbn. rewrite <- app_assoc. reflexivity.
Qed.


Lemma await_cleanup_none k s :
  cleanupListeners s = None ->
  AsyncCleanup.await_cleanup this behaviour k s =
  (Ok tt, push_frame (mkFrame Returned k) s).
Proof.
  intros H. unfold AsyncCleanup.await_cleanup.
  now rewrite executeCleanupListeners_none.
Qed.

Lemma await_cleanup_some k s ls :
  cleanupListeners s = Some ls ->
  AsyncCleanup.await_cleanup this behaviour k s =
  (Ok tt, push_frame (mkFrame (AllSettled (collected behaviour ls)) k)
                     (suspended this behaviour ls s)).
Proof.
  intros H. unfold AsyncCleanup.await_cleanup.
  now rewrite (executeCleanupListeners_some s ls H).
Qed.

(** Invocations in a trace. *)
Lemma invoked_listener_effects ls :
  flat_map (fun e => match e with Invoke l => [l] | _ => [] end)
           (flat_map (listener_effects behaviour) ls) = ls.
Proof.
  induction ls as [|l ls IH]; [reflexivity|].
  cbn [flat_map]. rewrite flat_map_app, IH. unfold listener_effects.
  destruct (behaviour l); reflexivity.
Qed.

Lemma invoked_suspended ls s :
  invoked (suspended this behaviour ls s) = invoked s ++ ls.
Proof.
  unfold invoked, suspended. cbn [trace].
  rewrite !flat_map_app, invoked_listener_effects. reflexivity.
Qed.

Lemma invoked_emit_effect e s :
  invoked (emit_effect e s) =
  invoked s ++ match e with Invoke l => [l] | _ => [] end.
Proof.
  unfold invoked, emit_effect. cbn [trace set_trace].
  rewrite flat_map_app. cbn [flat_map]. now rewrite app_nil_r.
Qed.

Lemma cleanup_or_nothing_refl s : cleanup_or_nothing s s.
Proof. left. split; reflexivity. Qed.

Lemma cleanup_or_nothing_trans s1 s2 s3 :
  cleanup_or_nothing s1 s2 -> cleanup_or_nothing s2 s3 ->
  cleanup_or_nothing s1 s3.
Proof.
  intros [[Hc Hi]|(ls & Hs & Hn & Hi)] [[Hc' Hi']|(ls' & Hs' & Hn' & Hi')].
  - left. split; congruence.
  - right. exists ls'. repeat split; congruence.
  - right. exists ls. repeat split; congruence.
  - congruence.
Qed.

Lemma await_cleanup_cleanup_or_nothing k s :
  cleanup_or_nothing s (snd (AsyncCleanup.await_cleanup this behaviour k s)).
Proof.
  destruct (cleanupListeners s) as [ls|] eqn:H.
  - rewrite (await_cleanup_some k s ls H). right. exists ls.
    repeat split; [assumption|]. cbn. apply invoked_suspended.
  - rewrite (await_cleanup_none k s H). left. split; reflexivity.
Qed.

Lemma await_cleanup_detaches k s ls :
  cleanupListeners s = Some ls ->
  cleanupListeners (snd (AsyncCleanup.await_cleanup this behaviour k s)) = None
  /\ invoked (snd (AsyncCleanup.await_cleanup this behaviour k s))
     = invoked s ++ ls.
Proof.
  intros H. rewrite (await_cleanup_some k s ls H). split; [reflexivity|].
  cbn. apply invoked_suspended.
Qed.

Lemma await_cleanup_ok k s :
  fst (AsyncCleanup.await_cleanup this behaviour k s) = Ok tt.
Proof.
  destruct (cleanupListeners s) as [ls|] eqn:H.
  - now rewrite (await_cleanup_some k s ls H).
  - now rewrite (await_cleanup_none k s H).
Qed.

(** A log line changes neither the registry nor the invocations. *)
Lemma logged_then_await (e : Effect) k s :
  (forall l, e <> Invoke l) ->
  cleanup_or_nothing s
    (snd (AsyncCleanup.await_cleanup this behaviour k (emit_effect e s))).
Proof.
  intros He. apply cleanup_or_nothing_trans with (emit_effect e s).
  - left. split; [reflexivity|]. rewrite invoked_emit_effect.
    destruct e; try apply app_nil_r. now elim (He l).
  - apply await_cleanup_cleanup_or_nothing.
Qed.

Lemma call_handler_ok f t s :
  fst (AsyncCleanup.call_handler this behaviour f t s) = Ok tt.
Proof.
  unfold AsyncCleanup.call_handler.
  destruct (fn_method f), t; try reflexivity;
    unfold_handlers;
    try apply await_cleanup_ok.
  destruct (negb _); [reflexivity|apply await_cleanup_ok].
Qed.

Lemma call_handler_cleanup_or_nothing f t s :
  cleanup_or_nothing s (snd (AsyncCleanup.call_handler this behaviour f t s)).
Proof.
  unfold AsyncCleanup.call_handler.
  destruct (fn_method f), t; try apply cleanup_or_nothing_refl;
    unfold_handlers;
    try (apply logged_then_await; discriminate).
  destruct (negb _); [apply cleanup_or_nothing_refl|].
  apply logged_then_await; discriminate.
Qed.

Lemma call_handler_detaches e f t s ls :
  handles t (e, f) = true -> cleanupListeners s = Some ls ->
  cleanupListeners (snd (AsyncCleanup.call_handler this behaviour f t s)) = None
  /\ invoked (snd (AsyncCleanup.call_handler this behaviour f t s))
     = invoked s ++ ls.
Proof.
  unfold handles. cbn [fst snd]. intros H Hs.
  apply andb_true_iff in H. destruct H as [_ H].
  assert (Hlog : forall x k, (forall l, x <> Invoke l) ->
    cleanupListeners (snd (AsyncCleanup.await_cleanup this behaviour k
                             (emit_effect x s))) = None /\
    invoked (snd (AsyncCleanup.await_cleanup this behaviour k
                    (emit_effect x s))) = invoked s ++ ls).
  { intros x k Hx.
    destruct (await_cleanup_detaches k (emit_effect x s) ls Hs) as [A B].
    split; [exact A|]. rewrite B, invoked_emit_effect.
    destruct x; rewrite ?app_nil_r; try reflexivity. now elim (Hx l). }
  unfold AsyncCleanup.call_handler.
  destruct (fn_method f), t; try discriminate;
    unfold_handlers;
    try (apply Hlog; discriminate).
  rewrite H. cbn [negb]. apply Hlog; discriminate.
Qed.


Lemma detached_stays_detached s s' :
  cleanup_or_nothing s s' -> cleanupListeners s = None ->
  cleanupListeners s' = None /\ invoked s' = invoked s.
Proof.
  intros [[Hc Hi]|(ls & Hs & _)] Hn; [split; congruence|congruence].
Qed.

Lemma for_each_handler t hs : forall s,
  let s' := snd (forEach hs (fun x => AsyncCleanup.call_handler
                               this behaviour (snd x) t) s) in
  cleanup_or_nothing s s' /\
  (forall ls, existsb (handles t) hs = true ->
              cleanupListeners s = Some ls ->
              cleanupListeners s' = None /\ invoked s' = invoked s ++ ls).
Proof.
  induction hs as [|[e f] hs IH]; intros s; cbn zeta.
  - split; [apply cleanup_or_nothing_refl|]. discriminate.
  - cbn [forEach snd]. rewrite bind_eq.
    pose proof (call_handler_ok f t s) as Hok.
    pose proof (call_handler_cleanup_or_nothing f t s) as Hstep.
    pose proof (call_handler_detaches e f t s) as Hdet.
    destruct (AsyncCleanup.call_handler this behaviour f t s) as [r s1].
    cbn [fst snd] in *. subst r.
    destruct (IH s1) as [Hrest Hlater]. split.
    + eapply cleanup_or_nothing_trans; eassumption.
    + intros ls Hex Hs. cbn [existsb] in Hex.
      destruct (handles t (e, f)) eqn:Hh.
      * destruct (Hdet ls eq_refl Hs) as [Hn Hi].
        destruct (detached_stays_detached _ _ Hrest Hn) as [Hn' Hi'].
        split; congruence.
      * cbn [orb] in Hex.
        destruct Hstep as [[Hc Hi]|(ls0 & Hs0 & Hn & Hi)].
        -- destruct (Hlater ls Hex) as [Hn' Hi']; [congruence|].
           split; congruence.
        -- destruct (detached_stays_detached _ _ Hrest Hn) as [Hn' Hi'].
           split; congruence.
Qed.

Lemma handles_event t x :
  handles t x = true -> event_eqb (AsyncCleanup.event_of t) (fst x) = true.
Proof. unfold handles. intros H. now apply andb_true_iff in H. Qed.

Lemma existsb_handles_filter t sb :
  existsb (handles t)
    (filter (fun x => event_eqb (AsyncCleanup.event_of t) (fst x)) sb)
  = existsb (handles t) sb.
Proof.
  induction sb as [|x sb IH]; [reflexivity|]. cbn [filter existsb].
  destruct (event_eqb _ _) eqn:He.
  - cbn [existsb]. now rewrite IH.
  - rewrite IH. destruct (handles t x) eqn:Hh; [|reflexivity].
    apply handles_event in Hh. congruence.
Qed.

Lemma emit_cleanup_or_nothing t s :
  cleanup_or_nothing s (snd (AsyncCleanup.emit this behaviour t s)).
Proof. unfold AsyncCleanup.emit. apply for_each_handler. Qed.

Lemma emit_detaches t s ls :
  existsb (handles t) (subs s) = true -> cleanupListeners s = Some ls ->
  cleanupListeners (snd (AsyncCleanup.emit this behaviour t s)) = None /\
  invoked (snd (AsyncCleanup.emit this behaviour t s)) = invoked s ++ ls.
Proof.
  intros H Hs. unfold AsyncCleanup.emit.
  apply for_each_handler; [|assumption]. now rewrite existsb_handles_filter.
Qed.

(** Resuming a suspended call. *)
Lemma log_rejections_eq s0 ps : forall s,
  AsyncCleanup.log_rejections (allSettled_results s0 ps) s =
  (Ok tt, set_trace (trace s ++ rejection_log s0 ps) s).
Proof.
  unfold AsyncCleanup.log_rejections.
  induction ps as [|p ps IH]; intros s.
  - cbn. rewrite app_nil_r. destruct s; reflexivity.
  - cbn [allSettled_results map forEach rejection_log flat_map].
    unfold bind at 1.
    destruct (lookup_settled s0 p) as [[|reason]|]; cbn -[forEach].
    + apply IH.
    + fold (allSettled_results s0 ps). rewrite IH. cbn.
      now rewrite <- app_assoc.
    + apply IH.
Qed.

Lemma resume_eq fr s :
  (forall err, fr_await fr <> Failed err) ->
  snd (AsyncCleanup.resume fr s) =
  mkState (cleanupListeners s) (next_fn s) (subs s) (settled s) (frames s)
          (match exit_code (fr_then fr) with
           | Some c => Some c
           | None => exited s
           end)
          (pid s)
          (trace s ++ rejection_log s (awaited (fr_await fr))
                   ++ terminal_effects (pid s) (fr_then fr)).
Proof.
  intros Hf. unfold AsyncCleanup.resume.
  destruct (fr_await fr) as [|err|ps] eqn:Ha.
  - destruct (fr_then fr); destruct s;
      cbv [ret process_exit process_kill modify set_exited emit_effect
           set_trace snd cleanupListeners next_fn subs settled frames exited
           pid trace exit_code terminal_effects awaited rejection_log
           flat_map];
      rewrite ?app_nil_r; reflexivity.
  - now elim (Hf err).
  - rewrite log_rejections_eq.
    destruct (fr_then fr); destruct s;
      cbv [ret process_exit process_kill modify set_exited emit_effect
           set_trace snd cleanupListeners next_fn subs settled frames exited
           pid trace exit_code terminal_effects awaited];
      rewrite <- ?app_assoc, ?app_nil_r; reflexivity.
Qed.

Lemma resume_failed fr s err :
  fr_await fr = Failed err ->
  snd (AsyncCleanup.resume fr s) = emit_effect (AsyncRejected err) s.
Proof. intros H. unfold AsyncCleanup.resume. now rewrite H. Qed.

Lemma invoked_rejection_log s0 ps :
  flat_map (fun e => match e with Invoke l => [l] | _ => [] end)
           (rejection_log s0 ps) = [].
Proof.
  induction ps as [|p ps IH]; [reflexivity|].
  unfold rejection_log. cbn [flat_map]. rewrite flat_map_app.
  fold (rejection_log s0 ps). rewrite IH.
  destruct (lookup_settled s0 p) as [[|]|]; reflexivity.
Qed.

Lemma resume_quiet fr s :
  cleanupListeners (snd (AsyncCleanup.resume fr s)) = cleanupListeners s /\
  invoked (snd (AsyncCleanup.resume fr s)) = invoked s.
Proof.
  destruct (fr_await fr) as [|err|ps] eqn:Ha.
  - rewrite resume_eq by (rewrite Ha; discriminate). split; [reflexivity|].
    unfold invoked. cbn [trace]. rewrite !flat_map_app, invoked_rejection_log.
    destruct (fr_then fr); cbn; now rewrite app_nil_r.
  - rewrite (resume_failed fr s err Ha). split; [reflexivity|].
    rewrite invoked_emit_effect. apply app_nil_r.
  - rewrite resume_eq by (rewrite Ha; discriminate). split; [reflexivity|].
    unfold invoked. cbn [trace]. rewrite !flat_map_app, invoked_rejection_log.
    destruct (fr_then fr); cbn; now rewrite app_nil_r.
Qed.

Lemma resume_ready_quiet frs : forall s,
  cleanupListeners (AsyncCleanup.resume_ready frs s) = cleanupListeners s /\
  invoked (AsyncCleanup.resume_ready frs s) = invoked s.
Proof.
  induction frs as [|fr frs IH]; intros s; cbn [AsyncCleanup.resume_ready].
  - split; reflexivity.
  - destruct (exited s); [split; reflexivity|].
    destruct (ready s fr).
    + destruct (IH (snd (AsyncCleanup.resume fr s))) as [A B].
      destruct (resume_quiet fr s) as [C D]. split; congruence.
    + destruct (IH (push_frame fr s)) as [A B]. split; [exact A|exact B].
Qed.

Lemma step_cleanup_or_nothing ev s :
  no_registry_call ev = true ->
  cleanup_or_nothing s (AsyncCleanup.step this behaviour ev s).
Proof.
  intros Hev. unfold AsyncCleanup.step.
  destruct (exited s); [apply cleanup_or_nothing_refl|].
  destruct ev; try discriminate.
  - apply await_cleanup_cleanup_or_nothing.
  - apply await_cleanup_cleanup_or_nothing.
  - apply emit_cleanup_or_nothing.
  - unfold settle. destruct (is_settled s p);
      [apply cleanup_or_nothing_refl|left; split; reflexivity].
  - left. unfold AsyncCleanup.tick.
    destruct (resume_ready_quiet (frames s) (set_frames [] s)) as [A B].
    split; [exact A|exact B].
Qed.

Lemma run_cleanup_or_nothing evs : forall s,
  forallb no_registry_call evs = true ->
  cleanup_or_nothing s (AsyncCleanup.run this behaviour evs s).
Proof.
  induction evs as [|ev evs IH]; intros s H; cbn in *.
  - apply cleanup_or_nothing_refl.
  - apply andb_true_iff in H. destruct H as [Hev Hevs].
    eapply cleanup_or_nothing_trans;
      [apply step_cleanup_or_nothing; exact Hev|apply IH; exact Hevs].
Qed.

Lemma step_fires ev s ls :
  fires s ev = true -> exited s = None -> cleanupListeners s = Some ls ->
  cleanupListeners (AsyncCleanup.step this behaviour ev s) = None /\
  invoked (AsyncCleanup.step this behaviour ev s) = invoked s ++ ls.
Proof.
  intros Hf He Hs. unfold AsyncCleanup.step. rewrite He.
  destruct ev; try discriminate.
  - apply await_cleanup_detaches; assumption.
  - apply await_cleanup_detaches; assumption.
  - apply emit_detaches; assumption.
Qed.

Lemma invoked_since_app s s' ls :
  invoked s' = invoked s ++ ls -> invoked_since s s' = ls.
Proof.
  intros H. unfold invoked_since. rewrite H, skipn_app, skipn_all, Nat.sub_diag.
  reflexivity.
Qed.



(** Promises settle once. *)
Lemma find_app_some {A} (f : A -> bool) l l' x :
  find f l = Some x -> find f (l ++ l') = Some x.
Proof.
  induction l as [|a l IH]; cbn; [discriminate|].
  destruct (f a); [trivial|exact IH].
Qed.

Lemma lookup_settle_stable s p r q x :
  lookup_settled s q = Some x -> lookup_settled (settle p r s) q = Some x.
Proof.
  unfold settle. destruct (is_settled s p); [trivial|].
  unfold lookup_settled. cbn [settled set_settled].
  destruct (find (fun y => Nat.eqb q (fst y)) (settled s)) as [y|] eqn:Hf;
    [|discriminate].
  intros H. pose proof (find_app_some _ _ [(p, r)] _ Hf) as Hf'.
  unfold PromiseId in *. now rewrite Hf'.
Qed.

Lemma all_settled_settle s p r ps :
  all_settled s ps = true ->
  all_settled (settle p r s) ps = true /\
  rejection_log (settle p r s) ps = rejection_log s ps.
Proof.
  unfold all_settled, rejection_log.
  induction ps as [|q ps IH]; cbn [forallb flat_map]; [split; reflexivity|].
  intros H. apply andb_true_iff in H. destruct H as [Hq Hps].
  destruct (IH Hps) as [A B]. rewrite A, B.
  unfold is_settled in *.
  destruct (lookup_settled s q) as [x|] eqn:Hl; [|discriminate].
  rewrite (lookup_settle_stable s p r q x Hl). split; reflexivity.
Qed.

Lemma settle_fields p r s :
  exited (settle p r s) = exited s /\ frames (settle p r s) = frames s /\
  trace (settle p r s) = trace s /\ subs (settle p r s) = subs s /\
  pid (settle p r s) = pid s.
Proof.
  unfold settle. destruct (is_settled s p); repeat split; reflexivity.
Qed.

Lemma ready_all_settled s fr :
  ready s fr = all_settled s (awaited (fr_await fr)).
Proof.
  unfold ready, all_settled. destruct (fr_await fr); reflexivity.
Qed.

Lemma set_frames_same s : set_frames (frames s) s = s.
Proof. destruct s; reflexivity. Qed.

Lemma all_settled_ext s s' ps :
  settled s' = settled s -> all_settled s' ps = all_settled s ps.
Proof.
  intros H. unfold all_settled, is_settled, lookup_settled. now rewrite H.
Qed.

Lemma rejection_log_ext s s' ps :
  settled s' = settled s -> rejection_log s' ps = rejection_log s ps.
Proof.
  intros H. unfold rejection_log, lookup_settled. now rewrite H.
Qed.

Lemma tick_waiting s1 fr s2 :
  (forall err, fr_await fr <> Failed err) ->
  still_waiting s1 fr s2 ->
  (still_waiting s1 fr (AsyncCleanup.tick s2) /\
   all_settled (AsyncCleanup.tick s2) (awaited (fr_await fr)) = false) \/
  finished s1 fr (AsyncCleanup.tick s2).
Proof.
  intros Hf (He & Hfr & Ht & Hsb & Hp). unfold AsyncCleanup.tick.
  rewrite Hfr. cbn [AsyncCleanup.resume_ready].
  change (exited (set_frames [] s2)) with (exited s2). rewrite He.
  rewrite (ready_all_settled _ fr).
  rewrite (all_settled_ext s2 (set_frames [] s2)) by reflexivity.
  destruct (all_settled s2 (awaited (fr_await fr))) eqn:Hall.
  - right. rewrite (resume_eq fr _ Hf). unfold finished.
    cbn [exited frames trace subs pid set_frames].
    rewrite (all_settled_ext s2) by reflexivity.
    rewrite !(rejection_log_ext s2 (set_frames [] s2)) by reflexivity.
    rewrite (rejection_log_ext s2 (mkState _ _ _ _ _ _ _ _)) by reflexivity.
    rewrite Hall, Ht, Hp, He. repeat split; try assumption.
    destruct (fr_then fr); reflexivity.
  - left. split; [|rewrite (all_settled_ext s2) by reflexivity; exact Hall].
    unfold still_waiting, push_frame. cbn. repeat split; assumption.
Qed.

Lemma tick_finished s1 fr s2 :
  finished s1 fr s2 ->
  AsyncCleanup.step this behaviour AsyncCleanup.Tick s2 = s2.
Proof.
  intros (_ & Hfr & _). unfold AsyncCleanup.step, AsyncCleanup.tick.
  destruct (exited s2); [reflexivity|]. rewrite Hfr. cbn.
  rewrite <- Hfr. apply set_frames_same.
Qed.

Lemma passive_step s1 fr ev s2 :
  (forall err, fr_await fr <> Failed err) -> passive ev = true ->
  still_waiting s1 fr s2 \/ finished s1 fr s2 ->
  still_waiting s1 fr (AsyncCleanup.step this behaviour ev s2) \/
  finished s1 fr (AsyncCleanup.step this behaviour ev s2).
Proof.
  intros Hf Hev [Hw|Hd].
  - destruct ev; try discriminate.
    + left. unfold AsyncCleanup.step.
      destruct Hw as (He & Hfr & Ht & Hsb & Hp). rewrite He.
      destruct (settle_fields p r s2) as (A & B & C & D & E).
      unfold still_waiting. rewrite A, B, C, D, E. repeat split; assumption.
    + unfold AsyncCleanup.step. destruct Hw as (He & Hw'). rewrite He.
      destruct (tick_waiting s1 fr s2 Hf (conj He Hw')) as [[Hw _]|Hd];
        [left|right]; assumption.
  - right. destruct ev; try discriminate.
    + unfold AsyncCleanup.step. destruct (exited s2) eqn:He; [assumption|].
      destruct Hd as (Hall & Hfr & Ht & Hx & Hsb & Hp).
      destruct (settle_fields p r s2) as (A & B & C & D & E).
      destruct (all_settled_settle s2 p r _ Hall) as [Hall' Hlog].
      unfold finished. rewrite A, B, C, D, E, Hlog, Hall'.
      repeat split; assumption.
    + now rewrite (tick_finished s1 fr s2 Hd).
Qed.

Lemma passive_run s1 fr evs : forall s2,
  (forall err, fr_await fr <> Failed err) -> forallb passive evs = true ->
  still_waiting s1 fr s2 \/ finished s1 fr s2 ->
  still_waiting s1 fr (AsyncCleanup.run this behaviour evs s2) \/
  finished s1 fr (AsyncCleanup.run this behaviour evs s2).
Proof.
  induction evs as [|ev evs IH]; intros s2 Hf Hp H; cbn in *; [assumption|].
  apply andb_true_iff in Hp. destruct Hp as [Hev Hevs].
  apply IH; [assumption..|]. now apply passive_step.
Qed.

(** A suspended call, left to settling promises and turns of the job queue,
    finishes exactly when everything it awaits has settled. *)
Lemma suspended_call_outcome s1 fr evs :
  (forall err, fr_await fr <> Failed err) ->
  exited s1 = None -> frames s1 = [fr] -> forallb passive evs = true ->
  let s2 := AsyncCleanup.run this behaviour (evs ++ [AsyncCleanup.Tick]) s1 in
  if all_settled s2 (awaited (fr_await fr))
  then finished s1 fr s2
  else still_waiting s1 fr s2.
Proof.
  intros Hf He Hfr Hp. cbn zeta. unfold AsyncCleanup.run.
  rewrite fold_left_app. fold (AsyncCleanup.run this behaviour evs s1).
  cbn [fold_left].
  assert (H0 : still_waiting s1 fr s1 \/ finished s1 fr s1).
  { left. repeat split; assumption. }
  destruct (passive_run s1 fr evs s1 Hf Hp H0) as [Hw|Hd].
  - unfold AsyncCleanup.step. destruct Hw as (He' & Hw'). rewrite He'.
    destruct (tick_waiting s1 fr _ Hf (conj He' Hw')) as [[Hw Hn]|Hd].
    + now rewrite Hn.
    + destruct Hd as (Hall & Hd'). rewrite Hall. split; assumption.
  - rewrite (tick_finished s1 fr _ Hd).
    destruct Hd as (Hall & Hd'). rewrite Hall. split; assumption.
Qed.


(** The registry. *)
Lemma install_eq s :
  AsyncCleanup.installExitListeners this s =
  (Ok tt,
   mkState (cleanupListeners s) (8 + next_fn s)
           (subs s ++ installed_handlers this (next_fn s))
           (settled s) (frames s) (exited s) (pid s)
           (trace s ++ map (fun x => ProcessOn (fst x) (snd x))
                           (installed_handlers this (next_fn s)))).
Proof.
  destruct s. unfold installed_handlers.
  cbv [AsyncCleanup.installExitListeners AsyncCleanup.listenedSignals
       forEach bind bind_fn process_on modify emit_effect ret
       set_subs set_trace set_next_fn
       cleanupListeners next_fn subs settled frames exited pid trace
       map fst snd Nat.add].
  rewrite <- !app_assoc. reflexivity.
Qed.

Lemma add_uninitialized l s :
  cleanupListeners s = None ->
  AsyncCleanup.add this l s =
  (Ok (mkFn (8 + next_fn s) (fn_method (AsyncCleanup.method_of this MRemove))
            (fn_bound (AsyncCleanup.method_of this MRemove) ++ [l])),
   mkState (Some [l]) (9 + next_fn s)
           (subs s ++ installed_handlers this (next_fn s))
           (settled s) (frames s) (exited s) (pid s)
           (trace s ++ map (fun x => ProcessOn (fst x) (snd x))
                           (installed_handlers this (next_fn s)))).
Proof.
  intros H. unfold AsyncCleanup.add. run_bind. rewrite H. run_bind.
  rewrite install_eq. cbv beta iota. run_bind.
  destruct s; reflexivity.
Qed.

Lemma add_active l s ls :
  cleanupListeners s = Some ls ->
  AsyncCleanup.add this l s =
  (Ok (mkFn (next_fn s) (fn_method (AsyncCleanup.method_of this MRemove))
            (fn_bound (AsyncCleanup.method_of this MRemove) ++ [l])),
   mkState (Some (set_add l ls)) (1 + next_fn s) (subs s)
           (settled s) (frames s) (exited s) (pid s) (trace s)).
Proof.
  intros H. unfold AsyncCleanup.add. run_bind. rewrite H. run_bind.
  rewrite H. destruct s; reflexivity.
Qed.

Lemma remove_uninitialized l s :
  cleanupListeners s = None -> AsyncCleanup.remove this l s = (Ok false, s).
Proof.
  intros H. unfold AsyncCleanup.remove. run_bind. now rewrite H.
Qed.

Lemma remove_final l s ls :
  cleanupListeners s = Some ls -> set_delete l ls = [] ->
  AsyncCleanup.remove this l s =
  (Ok (set_has l ls),
   mkState None (8 + next_fn s) (after_teardown this (next_fn s) (subs s))
           (settled s) (frames s) (exited s) (pid s)
           (trace s ++ teardown_calls this (next_fn s))).
Proof.
  intros H Hd. unfold AsyncCleanup.remove. run_bind. rewrite H, Hd.
  run_bind. cbn [List.length Nat.eqb]. run_bind.
  rewrite uninstall_eq. cbv beta iota. run_bind. reflexivity.
Qed.

Lemma remove_other l s ls :
  cleanupListeners s = Some ls -> set_delete l ls <> [] ->
  AsyncCleanup.remove this l s =
  (Ok (set_has l ls), set_cleanupListeners (Some (set_delete l ls)) s).
Proof.
  intros H Hd. unfold AsyncCleanup.remove. run_bind. rewrite H. run_bind.
  destruct (set_delete l ls) as [|x r]; [now elim Hd|].
  cbn [List.length Nat.eqb]. run_bind. reflexivity.
Qed.

Lemma add_registered l s :
  registered (snd (AsyncCleanup.add this l s)) = set_add l (registered s).
Proof.
  unfold registered at 2. destruct (cleanupListeners s) as [ls|] eqn:H.
  - now rewrite (add_active l s ls H).
  - now rewrite (add_uninitialized l s H).
Qed.

Lemma add_returns_remover l s :
  exists n, fst (AsyncCleanup.add this l s) =
            Ok (mkFn n (fn_method (AsyncCleanup.method_of this MRemove))
                     (fn_bound (AsyncCleanup.method_of this MRemove) ++ [l])).
Proof.
  destruct (cleanupListeners s) as [ls|] eqn:H.
  - rewrite (add_active l s ls H). now eexists.
  - rewrite (add_uninitialized l s H). now eexists.
Qed.

Lemma remove_result l s :
  fst (AsyncCleanup.remove this l s) = Ok (is_registered l s) /\
  registered (snd (AsyncCleanup.remove this l s))
  = set_delete l (registered s).
Proof.
  unfold is_registered, registered.
  destruct (cleanupListeners s) as [ls|] eqn:H.
  - destruct (set_delete l ls) as [|x r] eqn:Hd.
    + rewrite (remove_final l s ls H Hd). split; reflexivity.
    + rewrite (remove_other l s ls H) by (rewrite Hd; discriminate).
      rewrite Hd. split; reflexivity.
  - rewrite (remove_uninitialized l s H). cbn [fst snd]. rewrite H.
    split; reflexivity.
Qed.

(** A call that awaits the cleanup, made when nothing else is suspended:
    what it does at once, and how it ends. *)
Lemma await_cleanup_outcome k s evs :
  exited s = None -> frames s = [] -> forallb passive evs = true ->
  let s1 := snd (AsyncCleanup.await_cleanup this behaviour k s) in
  let s2 := AsyncCleanup.run this behaviour (evs ++ [AsyncCleanup.Tick]) s1 in
  let ps := collected behaviour (registered s) in
  trace s1 = trace s ++ cleanup_effects this behaviour s /\
  pid s1 = pid s /\
  exists fr, fr_then fr = k /\ awaited (fr_await fr) = ps /\
             if all_settled s2 ps then finished s1 fr s2
             else still_waiting s1 fr s2.
Proof.
  intros He Hfr Hp. cbn zeta. unfold registered, cleanup_effects.
  destruct (cleanupListeners s) as [ls|] eqn:Hs.
  - rewrite (await_cleanup_some k s ls Hs). cbn [snd].
    split; [reflexivity|]. split; [reflexivity|].
    exists (mkFrame (AllSettled (collected behaviour ls)) k).
    split; [reflexivity|]. split; [reflexivity|].
    apply (suspended_call_outcome _
             (mkFrame (AllSettled (collected behaviour ls)) k) evs);
      [discriminate|exact He| |exact Hp].
    unfold push_frame, suspended. cbn [frames set_frames]. now rewrite Hfr.
  - rewrite (await_cleanup_none k s Hs). cbn [snd].
    split; [unfold push_frame; cbn [trace set_frames]; now rewrite app_nil_r|].
    split; [reflexivity|].
    exists (mkFrame Returned k).
    split; [reflexivity|]. split; [reflexivity|].
    apply (suspended_call_outcome _ (mkFrame Returned k) evs);
      [discriminate|exact He| |exact Hp].
    unfold push_frame. cbn [frames set_frames]. now rewrite Hfr.
Qed.

(** Nothing the cleanup adds to the trace is the failure of an asynchronous
    call. *)
Lemma cleanup_effects_not_rejected s reason :
  ~ In (AsyncRejected reason) (cleanup_effects this behaviour s).
Proof.
  unfold cleanup_effects. destruct (cleanupListeners s) as [ls|]; [|intros []].
  intros H. apply in_app_or in H. destruct H as [H|H].
  - unfold teardown_calls in H. cbn in H.
    repeat (destruct H as [H|H]; [discriminate|]). exact H.
  - apply in_flat_map in H. destruct H as (l & _ & H).
    unfold listener_effects in H. destruct H as [H|H]; [discriminate|].
    destruct (behaviour l); [exact H|].
    destruct H as [H|[]]. discriminate.
Qed.

Lemma rejection_log_not_rejected s ps reason :
  ~ In (AsyncRejected reason) (rejection_log s ps).
Proof.
  unfold rejection_log. intros H. apply in_flat_map in H.
  destruct H as (p & _ & H).
  destruct (lookup_settled s p) as [[|r]|]; try exact H.
  destruct H as [H|[]]. discriminate.
Qed.

Lemma terminal_effects_not_rejected n k reason :
  ~ In (AsyncRejected reason) (terminal_effects n k).
Proof.
  destruct k; cbn; intros H; try exact H; destruct H as [H|[]]; discriminate.
Qed.

(** C2.  Cleanup execution is idempotent and runs once: on an uninitialized
    registry [executeCleanupListeners] returns at once and changes nothing;
    and when an event starts the cleanup of the listeners [ls], then whatever
    triggers, settlements and turns of the job queue follow, also while the
    listeners are still running, the listeners invoked since are exactly
    [ls], each of them once. *)
Theorem cleanup_runs_once s ls ev evs :
  cleanupListeners s = Some ls -> NoDup ls -> exited s = None ->
  fires s ev = true -> forallb no_registry_call evs = true ->
  AsyncCleanup.executeCleanupListeners this behaviour
    (set_cleanupListeners None s) = (Ok Returned, set_cleanupListeners None s)
  /\ invoked (AsyncCleanup.run this behaviour (ev :: evs) s) = invoked s ++ ls
  /\ forall l,
       count_occ Nat.eq_dec
         (invoked_since s (AsyncCleanup.run this behaviour (ev :: evs) s)) l
       = if set_has l ls then 1 else 0.
Proof.
  intros Hs Hnd He Hf Hevs.
  split; [now apply executeCleanupListeners_none|].
  destruct (step_fires ev s ls Hf He Hs) as [Hn Hi].
  pose proof (run_cleanup_or_nothing evs
                (AsyncCleanup.step this behaviour ev s) Hevs) as Hrest.
  destruct (detached_stays_detached _ _ Hrest Hn) as [_ Hi'].
  assert (Hall : invoked (AsyncCleanup.run this behaviour (ev :: evs) s)
                 = invoked s ++ ls).
  { cbn [AsyncCleanup.run fold_left].
    fold (AsyncCleanup.run this behaviour evs
            (AsyncCleanup.step this behaviour ev s)).
    congruence. }
  split; [exact Hall|]. intros l.
  rewrite (invoked_since_app _ _ _ Hall).
  destruct (set_has l ls) eqn:Hex.
  - apply NoDup_count_occ'; [assumption|]. now apply set_has_In.
  - apply count_occ_not_In. intros Hin. apply set_has_In in Hin. congruence.
Qed.

(** C4.  Cleanup execution invokes every listener of the detached set once,
    in the order of registration (a new listener is registered last); a
    listener that throws is caught, the error is logged as an uncaught
    exception during cleanup right after the call, and every listener after
    it is still invoked. *)
Theorem listeners_invoked_in_order s ls :
  cleanupListeners s = Some ls ->
  let r := AsyncCleanup.executeCleanupListeners this behaviour s in
  fst r = Ok (AllSettled (collected behaviour ls)) /\
  cleanupListeners (snd r) = None /\
  invoked (snd r) = invoked s ++ ls /\
  trace (snd r) = trace s ++ teardown_calls this (next_fn s)
                          ++ flat_map (listener_effects behaviour) ls /\
  (forall before l after err,
     ls = before ++ l :: after -> behaviour l = Throws err ->
     exists done,
       trace (snd r) =
       done ++ Invoke l
            :: ConsoleError "Uncaught exception during cleanup" err
            :: flat_map (listener_effects behaviour) after) /\
  (forall l, registered (snd (AsyncCleanup.add this l s)) =
             if set_has l ls then ls else ls ++ [l]).
Proof.
  intros Hs. cbn zeta. rewrite (executeCleanupListeners_some s ls Hs).
  cbn [fst snd]. split; [reflexivity|]. split; [reflexivity|].
  split; [apply invoked_suspended|]. split; [reflexivity|]. split.
  - intros before l after err Hls Hl.
    exists (trace s ++ teardown_calls this (next_fn s)
                    ++ flat_map (listener_effects behaviour) before).
    unfold suspended. cbn [trace]. rewrite Hls, flat_map_app.
    cbn [flat_map]. unfold listener_effects at 2. rewrite Hl.
    rewrite <- !app_assoc. reflexivity.
  - intros l. rewrite add_registered. unfold registered. rewrite Hs.
    reflexivity.
Qed.

(** C5.  A call that awaits the cleanup of listeners with asynchronous
    results stays suspended, and does nothing, as long as one of the
    promises they returned is unsettled, also when others have been
    rejected; once all have settled it logs every rejected one, in order, as
    an unhandled rejection during cleanup and goes on with its continuation:
    the awaited cleanup has not failed, whatever the listeners did. *)
Theorem cleanup_waits_for_all_results k s ls evs :
  cleanupListeners s = Some ls -> exited s = None -> frames s = [] ->
  forallb passive evs = true ->
  let ps := collected behaviour ls in
  let s1 := snd (AsyncCleanup.await_cleanup this behaviour k s) in
  let s2 := AsyncCleanup.run this behaviour (evs ++ [AsyncCleanup.Tick]) s1 in
  frames s1 = [mkFrame (AllSettled ps) k] /\
  (if all_settled s2 ps
   then trace s2 = trace s1 ++ rejection_log s2 ps
                           ++ terminal_effects (pid s) k /\
        frames s2 = []
   else trace s2 = trace s1 /\ frames s2 = [mkFrame (AllSettled ps) k] /\
        exited s2 = None) /\
  (forall reason, In (AsyncRejected reason) (trace s2) ->
                  In (AsyncRejected reason) (trace s)).
Proof.
  intros Hs He Hfr Hp. cbn zeta.
  rewrite (await_cleanup_some k s ls Hs). cbn [snd].
  set (fr := mkFrame (AllSettled (collected behaviour ls)) k).
  set (s1 := push_frame fr (suspended this behaviour ls s)).
  assert (Ht1 : trace s1 = trace s ++ cleanup_effects this behaviour s).
  { unfold cleanup_effects. rewrite Hs. reflexivity. }
  assert (Hfr1 : frames s1 = [fr]).
  { unfold s1, push_frame, suspended. cbn [frames set_frames].
    now rewrite Hfr. }
  split; [exact Hfr1|].
  pose proof (suspended_call_outcome s1 fr evs) as Hout.
  cbn zeta in Hout. specialize (Hout ltac:(discriminate) He Hfr1 Hp).
  change (awaited (fr_await fr)) with (collected behaviour ls) in Hout.
  destruct (all_settled _ (collected behaviour ls)).
  - destruct Hout as (_ & Hf2 & Ht2 & _). split; [split; assumption|].
    intros reason Hin. rewrite Ht2, Ht1 in Hin.
    repeat (apply in_app_or in Hin; destruct Hin as [Hin|Hin]);
      try assumption.
    + now apply cleanup_effects_not_rejected in Hin.
    + now apply rejection_log_not_rejected in Hin.
    + now apply terminal_effects_not_rejected in Hin.
  - destruct Hout as (He2 & Hf2 & Ht2 & _).
    split; [repeat split; assumption|].
    intros reason Hin. rewrite Ht2, Ht1 in Hin.
    apply in_app_or in Hin. destruct Hin as [Hin|Hin]; [assumption|].
    now apply cleanup_effects_not_rejected in Hin.
Qed.

Lemma add_fields l s :
  cleanupListeners (snd (AsyncCleanup.add this l s))
  = Some (set_add l (registered s)) /\
  exited (snd (AsyncCleanup.add this l s)) = exited s.
Proof.
  unfold registered. destruct (cleanupListeners s) as [ls|] eqn:H.
  - rewrite (add_active l s ls H). split; reflexivity.
  - rewrite (add_uninitialized l s H). split; reflexivity.
Qed.

(** C6.  Registration has set semantics: a second [add] of the same listener
    leaves the listener set as the first one made it, and when a trigger
    then starts the cleanup, the listener is invoked exactly once. *)
Theorem add_twice_invokes_once l s ev :
  distinct s -> exited s = None ->
  let s1 := snd (AsyncCleanup.add this l s) in
  let s2 := snd (AsyncCleanup.add this l s1) in
  fires s2 ev = true ->
  cleanupListeners s2 = cleanupListeners s1 /\
  is_registered l s2 = true /\
  count_occ Nat.eq_dec
    (invoked_since s2 (AsyncCleanup.step this behaviour ev s2)) l = 1.
Proof.
  intros Hd He. cbn zeta. intros Hf.
  destruct (add_fields l s) as [Hc1 He1].
  destruct (add_fields l (snd (AsyncCleanup.add this l s))) as [Hc2 He2].
  assert (Hr1 : registered (snd (AsyncCleanup.add this l s))
                = set_add l (registered s)) by apply add_registered.
  rewrite Hr1, set_add_idempotent in Hc2.
  split; [congruence|]. split.
  - unfold is_registered, registered. rewrite Hc2. apply set_add_has.
  - destruct (step_fires ev _ (set_add l (registered s)) Hf) as [_ Hi];
      [congruence|exact Hc2|].
    rewrite (invoked_since_app _ _ _ Hi).
    apply NoDup_count_occ'; [now apply set_add_NoDup|].
    apply set_has_In, set_add_has.
Qed.

(** C7.  [remove(L)] returns whether [L] was registered when it was called;
    a second [remove(L)] right after returns false; on an uninitialized
    registry [remove] returns false and changes nothing; neither [add] nor
    [remove] throws. *)
Theorem remove_reports_registration l s :
  fst (AsyncCleanup.remove this l s) = Ok (is_registered l s) /\
  fst (AsyncCleanup.remove this l (snd (AsyncCleanup.remove this l s)))
  = Ok false /\
  AsyncCleanup.remove this l (set_cleanupListeners None s)
  = (Ok false, set_cleanupListeners None s) /\
  (exists remover, fst (AsyncCleanup.add this l s) = Ok remover).
Proof.
  destruct (remove_result l s) as [Hr Hs].
  destruct (remove_result l (snd (AsyncCleanup.remove this l s))) as [Hr' _].
  split; [exact Hr|]. split.
  - rewrite Hr'. unfold is_registered. rewrite Hs.
    now rewrite set_has_delete.
  - split; [now apply remove_uninitialized|].
    destruct (add_returns_remover l s) as [n Hn]. eexists. exact Hn.
Qed.

Lemma await_cleanup_fields k s :
  exited (snd (AsyncCleanup.await_cleanup this behaviour k s)) = exited s /\
  (cleanupListeners s = None ->
   subs (snd (AsyncCleanup.await_cleanup this behaviour k s)) = subs s).
Proof.
  destruct (cleanupListeners s) as [ls|] eqn:H.
  - rewrite (await_cleanup_some k s ls H). split; [reflexivity|discriminate].
  - rewrite (await_cleanup_none k s H). split; reflexivity.
Qed.

(** The outcome of a call that awaits the cleanup, on the trace. *)
Lemma await_cleanup_trace k s evs :
  exited s = None -> frames s = [] -> forallb passive evs = true ->
  let ps := collected behaviour (registered s) in
  let s1 := snd (AsyncCleanup.await_cleanup this behaviour k s) in
  let s2 := AsyncCleanup.run this behaviour (evs ++ [AsyncCleanup.Tick]) s1 in
  trace s1 = trace s ++ cleanup_effects this behaviour s /\
  exited s1 = None /\ subs s2 = subs s1 /\
  if all_settled s2 ps
  then trace s2 = trace s1 ++ rejection_log s2 ps
                          ++ terminal_effects (pid s) k /\
       exited s2 = exit_code k
  else trace s2 = trace s1 /\ exited s2 = None.
Proof.
  intros He Hfr Hp. cbn zeta.
  destruct (await_cleanup_outcome k s evs He Hfr Hp)
    as (Ht1 & Hp1 & fr & Hk & Hps & Hout).
  destruct (await_cleanup_fields k s) as [He1 _].
  split; [exact Ht1|]. split; [congruence|].
  destruct (all_settled _ (collected behaviour (registered s))).
  - destruct Hout as (_ & _ & Ht2 & He2 & Hs2 & _).
    split; [exact Hs2|]. rewrite Hps, Hk, Hp1 in Ht2. rewrite Hk in He2.
    split; assumption.
  - destruct Hout as (He2 & _ & Ht2 & Hs2 & _).
    split; [exact Hs2|]. split; assumption.
Qed.

(** C8.  [exitAfterCleanup(code)], with [code] defaulting to 0, runs the
    cleanup execution and, once every promise the listeners returned has
    settled and the rejections are logged, calls [process.exit] with that
    code, and not before; with no listener registered it exits with the code
    and calls no [removeListener]. *)
Theorem exitAfterCleanup_exits_with_code code s evs :
  exited s = None -> frames s = [] -> forallb passive evs = true ->
  let c := match code with Some c => c | None => 0%Z end in
  let ps := collected behaviour (registered s) in
  let s1 := snd (AsyncCleanup.exitAfterCleanup this behaviour code s) in
  let s2 := AsyncCleanup.run this behaviour (evs ++ [AsyncCleanup.Tick]) s1 in
  trace s1 = trace s ++ cleanup_effects this behaviour s /\
  exited s1 = None /\
  (if all_settled s2 ps
   then trace s2 = trace s1 ++ rejection_log s2 ps ++ [ProcessExit c] /\
        exited s2 = Some c
   else trace s2 = trace s1 /\ exited s2 = None) /\
  (cleanupListeners s = None ->
   trace s2 = trace s ++ [ProcessExit c] /\ exited s2 = Some c /\
   subs s2 = subs s /\ existsb is_teardown (trace_since s s2) = false).
Proof.
  intros He Hfr Hp. cbn zeta. unfold AsyncCleanup.exitAfterCleanup.
  set (c := match code with Some c => c | None => 0%Z end).
  pose proof (await_cleanup_trace (ThenExit c) s evs He Hfr Hp) as H.
  cbn zeta in H. destruct H as (Ht1 & He1 & Hs2 & Hout).
  split; [exact Ht1|]. split; [exact He1|]. split; [exact Hout|].
  intros Hn. destruct (await_cleanup_fields (ThenExit c) s) as [_ Hs1].
  unfold registered in Hout. rewrite Hn in Hout. cbn in Hout.
  destruct Hout as [Ht2 He2].
  unfold cleanup_effects in Ht1. rewrite Hn, app_nil_r in Ht1.
  rewrite Ht1 in Ht2.
  split; [exact Ht2|]. split; [exact He2|].
  split; [rewrite Hs2; now apply Hs1|].
  unfold trace_since. rewrite Ht2, skipn_app, skipn_all, Nat.sub_diag.
  reflexivity.
Qed.

(** C9.  The handler of a termination signal logs it, runs the cleanup and
    then sends the same signal to the process itself with [process.kill],
    without exiting; the message "shutdown" is handled as SIGTERM is; any
    other message does nothing. *)
Theorem signal_is_raised_again signal message s evs :
  exited s = None -> frames s = [] -> forallb passive evs = true ->
  let ps := collected behaviour (registered s) in
  (let s1 := snd (AsyncCleanup.signalListener this behaviour signal s) in
   let s2 := AsyncCleanup.run this behaviour (evs ++ [AsyncCleanup.Tick]) s1 in
   trace s1 = trace s
              ++ ConsoleLog ("Exiting due to signal " ++ signal_name signal)
              :: cleanup_effects this behaviour s /\
   if all_settled s2 ps
   then trace s2 = trace s1 ++ rejection_log s2 ps
                           ++ [ProcessKill (pid s) signal] /\
        exited s2 = None
   else trace s2 = trace s1 /\ exited s2 = None) /\
  (let s1 := snd (AsyncCleanup.pm2ClusterShutdownListener
                    this behaviour "shutdown" s) in
   let s2 := AsyncCleanup.run this behaviour (evs ++ [AsyncCleanup.Tick]) s1 in
   trace s1 = trace s
              ++ ConsoleLog "Exiting due to PM2 cluster shutdown"
              :: cleanup_effects this behaviour s /\
   if all_settled s2 ps
   then trace s2 = trace s1 ++ rejection_log s2 ps
                           ++ [ProcessKill (pid s) SIGTERM] /\
        exited s2 = None
   else trace s2 = trace s1 /\ exited s2 = None) /\
  (message <> "shutdown"%string ->
   AsyncCleanup.pm2ClusterShutdownListener this behaviour message s
   = (Ok tt, s)).
Proof.
  intros He Hfr Hp. cbn zeta.
  assert (Hlog : forall msg sg,
    let s0 := emit_effect (ConsoleLog msg) s in
    let s1 :=
      snd (AsyncCleanup.await_cleanup this behaviour (ThenKill sg) s0) in
    let s2 := AsyncCleanup.run this behaviour (evs ++ [AsyncCleanup.Tick]) s1 in
    trace s1 = trace s ++ ConsoleLog msg :: cleanup_effects this behaviour s /\
    if all_settled s2 (collected behaviour (registered s))
    then trace s2 = trace s1 ++ rejection_log s2
                                  (collected behaviour (registered s))
                            ++ [ProcessKill (pid s) sg] /\
         exited s2 = None
    else trace s2 = trace s1 /\ exited s2 = None).
  { intros msg sg. cbn zeta.
    pose proof (await_cleanup_trace (ThenKill sg)
                  (emit_effect (ConsoleLog msg) s) evs He Hfr Hp) as H.
    cbn zeta in H. destruct H as (Ht1 & _ & _ & Hout).
    split; [|exact Hout].
    rewrite Ht1. unfold emit_effect. cbn [trace set_trace].
    rewrite <- app_assoc. reflexivity. }
  split; [|split].
  - unfold AsyncCleanup.signalListener, AsyncCleanup.killAfterCleanup,
      console_log. rewrite bind_eq, modify_eq. apply Hlog.
  - unfold AsyncCleanup.pm2ClusterShutdownListener,
      AsyncCleanup.killAfterCleanup, console_log.
    cbn [String.eqb Ascii.eqb Bool.eqb negb andb].
    rewrite bind_eq, modify_eq. apply Hlog.
  - intros Hm. unfold AsyncCleanup.pm2ClusterShutdownListener.
    apply String.eqb_neq in Hm. now rewrite Hm.
Qed.

End ClassProperties.

(** ** Subscriptions in the states the program reaches *)

Section Subscriptions.

Variable this : AsyncCleanup.Instance.
Variable behaviour : CleanupListener -> Behaviour.

Lemma keeps_subs_refl s : keeps_subs s s.
Proof. split; [apply Nat.le_refl|reflexivity]. Qed.

Lemma keeps_subs_trans s1 s2 s3 :
  keeps_subs s1 s2 -> keeps_subs s2 s3 -> keeps_subs s1 s3.
Proof.
  intros [A B] [C D]. split; [eapply Nat.le_trans; eassumption|congruence].
Qed.

Lemma keeps_subs_allocated s s' :
  keeps_subs s s' -> allocated s -> allocated s'.
Proof.
  intros [Hn Hs] Ha. unfold allocated in *. rewrite Hs.
  eapply Forall_impl; [|exact Ha]. cbn beta. intros x Hx. lia.
Qed.

(** The class never unsubscribes: what [uninstallExitListeners] passes to
    [removeListener] are function objects made on the spot. *)
Lemma uninstall_keeps_subs s :
  allocated s ->
  keeps_subs s (snd (AsyncCleanup.uninstallExitListeners this s)).
Proof.
  intros Ha. rewrite uninstall_eq. cbn [snd]. split; cbn [next_fn subs].
  - lia.
  - now apply after_teardown_fresh.
Qed.

Lemma await_cleanup_keeps_subs k s :
  allocated s ->
  keeps_subs s (snd (AsyncCleanup.await_cleanup this behaviour k s)).
Proof.
  intros Ha. destruct (cleanupListeners s) as [ls|] eqn:H.
  - rewrite (await_cleanup_some this behaviour k s ls H). cbn [snd].
    split; cbn; [lia|]. now apply after_teardown_fresh.
  - rewrite (await_cleanup_none this behaviour k s H).
    split; [apply Nat.le_refl|reflexivity].
Qed.

Lemma call_handler_keeps_subs f t s :
  allocated s ->
  keeps_subs s (snd (AsyncCleanup.call_handler this behaviour f t s)).
Proof.
  intros Ha.
  assert (Hlog : forall e k,
    keeps_subs s (snd (AsyncCleanup.await_cleanup this behaviour k
                         (emit_effect e s)))).
  { intros e k. apply (await_cleanup_keeps_subs k (emit_effect e s)).
    exact Ha. }
  unfold AsyncCleanup.call_handler.
  destruct (fn_method f), t; try apply keeps_subs_refl;
    unfold AsyncCleanup.beforeExitListener,
      AsyncCleanup.uncaughtExceptionListener, AsyncCleanup.signalListener,
      AsyncCleanup.pm2ClusterShutdownListener, AsyncCleanup.exitAfterCleanup,
      AsyncCleanup.killAfterCleanup, console_log, console_error;
    try (rewrite bind_eq, modify_eq; apply Hlog).
  destruct (negb _); [apply keeps_subs_refl|].
  rewrite bind_eq, modify_eq. apply Hlog.
Qed.

Lemma for_each_handler_keeps_subs t (hs : list (EventName * FnObj)) :
  forall s,
  allocated s ->
  keeps_subs s (snd (forEach hs (fun x => AsyncCleanup.call_handler
                                   this behaviour (snd x) t) s)).
Proof.
  induction hs as [|[e f] hs IH]; intros s Ha.
  - apply keeps_subs_refl.
  - cbn [forEach snd]. rewrite bind_eq.
    pose proof (call_handler_ok this behaviour f t s) as Hok.
    pose proof (call_handler_keeps_subs f t s Ha) as Hstep.
    destruct (AsyncCleanup.call_handler this behaviour f t s) as [r s1].
    cbn [fst snd] in *. subst r.
    eapply keeps_subs_trans; [exact Hstep|].
    apply IH. eapply keeps_subs_allocated; eassumption.
Qed.

Lemma resume_ready_keeps_subs frs : forall s,
  keeps_subs s (AsyncCleanup.resume_ready frs s).
Proof.
  induction frs as [|fr frs IH]; intros s; cbn [AsyncCleanup.resume_ready].
  - apply keeps_subs_refl.
  - destruct (exited s); [apply keeps_subs_refl|].
    destruct (ready s fr).
    + eapply keeps_subs_trans; [|apply IH].
      destruct (fr_await fr) as [|err|ps] eqn:Ha.
      * rewrite resume_eq by (rewrite Ha; discriminate).
        split; [apply Nat.le_refl|reflexivity].
      * rewrite (resume_failed fr s err Ha).
        split; [apply Nat.le_refl|reflexivity].
      * rewrite resume_eq by (rewrite Ha; discriminate).
        split; [apply Nat.le_refl|reflexivity].
    + eapply keeps_subs_trans; [|apply IH].
      split; [apply Nat.le_refl|reflexivity].
Qed.

Lemma remove_keeps_subs l s :
  allocated s -> keeps_subs s (snd (AsyncCleanup.remove this l s)).
Proof.
  intros Ha. destruct (cleanupListeners s) as [ls|] eqn:H.
  - destruct (set_delete l ls) as [|x r] eqn:Hd.
    + rewrite (remove_final this l s ls H Hd). cbn [snd].
      split; cbn; [lia|]. now apply after_teardown_fresh.
    + rewrite (remove_other this l s ls H) by (rewrite Hd; discriminate).
      split; [apply Nat.le_refl|reflexivity].
  - rewrite (remove_uninitialized this l s H). apply keeps_subs_refl.
Qed.

Lemma add_grows_subs l s :
  grows_subs this s (snd (AsyncCleanup.add this l s)).
Proof.
  destruct (cleanupListeners s) as [ls|] eqn:H.
  - rewrite (add_active this l s ls H). left. split; cbn; [lia|reflexivity].
  - rewrite (add_uninitialized this l s H). right.
    split; cbn; [lia|reflexivity].
Qed.

Lemma step_grows_subs ev s :
  allocated s -> grows_subs this s (AsyncCleanup.step this behaviour ev s).
Proof.
  intros Ha. unfold AsyncCleanup.step.
  destruct (exited s); [left; apply keeps_subs_refl|].
  destruct ev.
  - apply add_grows_subs.
  - left. now apply remove_keeps_subs.
  - destruct (fn_method f); try (left; apply keeps_subs_refl).
    destruct (fn_bound f); [left; apply keeps_subs_refl|].
    left. now apply remove_keeps_subs.
  - left. now apply await_cleanup_keeps_subs.
  - left. now apply await_cleanup_keeps_subs.
  - left. unfold AsyncCleanup.emit. now apply for_each_handler_keeps_subs.
  - left. unfold settle. destruct (is_settled s p);
      split; try apply Nat.le_refl; reflexivity.
  - left. unfold AsyncCleanup.tick.
    pose proof (resume_ready_keeps_subs (frames s) (set_frames [] s)) as H.
    exact H.
Qed.

Lemma installed_handlers_allocated n :
  Forall (fun x => fn_id (snd x) < 8 + n) (installed_handlers this n).
Proof.
  unfold installed_handlers. cbn. repeat constructor; cbn; lia.
Qed.

Lemma installed_handlers_intercepted n :
  Forall (fun x => intercepted (fst x) = true) (installed_handlers this n).
Proof. unfold installed_handlers. cbn. repeat constructor. Qed.

Lemma step_registry_distinct ev s :
  distinct s -> distinct (AsyncCleanup.step this behaviour ev s).
Proof.
  intros Hd.
  assert (Hrem : forall l, distinct (snd (AsyncCleanup.remove this l s))).
  { intros l. unfold distinct.
    destruct (remove_result this l s) as [_ Hr]. rewrite Hr.
    now apply set_delete_NoDup. }
  destruct (no_registry_call ev) eqn:Hev.
  - destruct (step_cleanup_or_nothing this behaviour ev s Hev)
      as [[Hc _]|(ls & _ & Hn & _)]; unfold distinct, registered in *.
    + now rewrite Hc.
    + rewrite Hn. constructor.
  - unfold AsyncCleanup.step. destruct (exited s); [assumption|].
    destruct ev; try discriminate.
    + unfold distinct. rewrite add_registered. now apply set_add_NoDup.
    + apply Hrem.
    + destruct (fn_method f); try assumption.
      destruct (fn_bound f); [assumption|apply Hrem].
Qed.

Lemma step_invariant ev s :
  invariant s -> invariant (AsyncCleanup.step this behaviour ev s).
Proof.
  intros (Ha & Hd & Hi).
  split; [|split; [now apply step_registry_distinct|]].
  - destruct (step_grows_subs ev s Ha) as [Hk|[Hn Hs]].
    + eapply keeps_subs_allocated; eassumption.
    + unfold allocated in *. rewrite Hs. apply Forall_app. split.
      * eapply Forall_impl; [|exact Ha]. cbn beta. intros x Hx. lia.
      * eapply Forall_impl; [|apply installed_handlers_allocated].
        cbn beta. intros x Hx. lia.
  - destruct (step_grows_subs ev s Ha) as [[_ Hs]|[_ Hs]]; rewrite Hs.
    + exact Hi.
    + apply Forall_app. split; [exact Hi|].
      apply installed_handlers_intercepted.
Qed.

Lemma run_invariant evs : forall s,
  invariant s -> invariant (AsyncCleanup.run this behaviour evs s).
Proof.
  induction evs as [|ev evs IH]; intros s H; [exact H|].
  cbn [AsyncCleanup.run fold_left]. apply IH. now apply step_invariant.
Qed.

Lemma run_subs_grow evs : forall s,
  invariant s ->
  exists more, subs (AsyncCleanup.run this behaviour evs s) = subs s ++ more.
Proof.
  induction evs as [|ev evs IH]; intros s H.
  - exists []. cbn. now rewrite app_nil_r.
  - cbn [AsyncCleanup.run fold_left].
    destruct (IH _ (step_invariant ev s H)) as [more Hm].
    fold (AsyncCleanup.run this behaviour evs
            (AsyncCleanup.step this behaviour ev s)) in Hm.
    destruct H as (Ha & _).
    destruct (step_grows_subs ev s Ha) as [[_ Hs]|[_ Hs]];
      rewrite Hs in Hm.
    + now exists more.
    + rewrite <- app_assoc in Hm. eexists. exact Hm.
Qed.

(** One half of the invariant holds: an active registry is intercepted. *)
Lemma step_active_intercepted ev s :
  allocated s ->
  (cleanupListeners s <> None -> subs s <> []) ->
  cleanupListeners (AsyncCleanup.step this behaviour ev s) <> None ->
  subs (AsyncCleanup.step this behaviour ev s) <> [].
Proof.
  intros Ha Hs Hc.
  assert (Hgrow : subs s <> [] ->
                  subs (AsyncCleanup.step this behaviour ev s) <> []).
  { intros Hne. destruct (step_grows_subs ev s Ha) as [[_ E]|[_ E]];
      rewrite E; [exact Hne|].
    intros Happ. apply app_eq_nil in Happ. now destruct Happ. }
  destruct (cleanupListeners s) as [ls|] eqn:Hcl;
    [apply Hgrow, Hs; discriminate|].
  destruct (no_registry_call ev) eqn:Hev.
  - destruct (step_cleanup_or_nothing this behaviour ev s Hev)
      as [[E _]|(ls & E & _)]; congruence.
  - revert Hc. unfold AsyncCleanup.step. destruct (exited s); [congruence|].
    destruct ev; try discriminate.
    + intros _. rewrite (add_uninitialized this l s Hcl). cbn [snd subs].
      intros Happ. apply app_eq_nil in Happ. destruct Happ as [_ Happ].
      discriminate Happ.
    + rewrite (remove_uninitialized this l s Hcl). cbn [snd]. congruence.
    + destruct (fn_method f); try congruence.
      destruct (fn_bound f) as [|l rest]; [congruence|].
      rewrite (remove_uninitialized this l s Hcl). cbn [snd]. congruence.
Qed.

Lemma run_active_intercepted evs : forall s,
  invariant s ->
  (cleanupListeners s <> None -> subs s <> []) ->
  cleanupListeners (AsyncCleanup.run this behaviour evs s) <> None ->
  subs (AsyncCleanup.run this behaviour evs s) <> [].
Proof.
  induction evs as [|ev evs IH]; intros s Hi Hs; [exact Hs|].
  cbn [AsyncCleanup.run fold_left].
  apply IH; [now apply step_invariant|].
  destruct Hi as (Ha & _). now apply step_active_intercepted.
Qed.

End Subscriptions.

Lemma init_eq own_pid :
  Index.init own_pid = mkState None 26 [] [] [] None own_pid [].
Proof. vm_compute. reflexivity. Qed.

Lemma init_invariant own_pid : invariant (Index.init own_pid).
Proof. rewrite init_eq. repeat split; constructor. Qed.

(** ** The module-level implementation *)

Lemma remove_last_app_r {A} (p : A -> bool) (l r : list A) :
  existsb p r = true -> remove_last p (l ++ r) = l ++ remove_last p r.
Proof.
  intros H. induction l as [|a l IH]; [reflexivity|].
  cbn [app remove_last]. rewrite existsb_app, H, orb_true_r. now rewrite IH.
Qed.

(** With free functions every [removeListener] is given the object that was
    subscribed: uninstalling undoes installing. *)
Lemma free_uninstall_restores s :
  subs (snd (FreeFunctions.uninstallExitListeners
               (snd (FreeFunctions.installExitListeners s)))) = subs s.
Proof.
  destruct s as [cl n sb st fr ex p tr].
  cbv [FreeFunctions.installExitListeners FreeFunctions.uninstallExitListeners
       FreeFunctions.listenedSignals forEach bind process_on
       process_removeListener modify emit_effect ret set_subs set_trace
       cleanupListeners next_fn subs settled frames exited pid trace snd].
  rewrite <- !app_assoc. cbn [app].
  repeat (rewrite remove_last_app_r by reflexivity;
          cbn [remove_last existsb subscribed_as event_eqb signal_eqb
               same_object fst snd fn_id FreeFunctions.fn method_index
               Nat.eqb andb orb]).
  apply app_nil_r.
Qed.

Lemma free_add_result l s :
  fst (FreeFunctions.addCleanupListener l s) = Ok tt /\
  registered (snd (FreeFunctions.addCleanupListener l s))
  = set_add l (registered s).
Proof.
  unfold FreeFunctions.addCleanupListener, registered.
  destruct (cleanupListeners s) as [ls|] eqn:H; run_bind; rewrite H; run_bind.
  - cbn [snd fst]. rewrite H. split; reflexivity.
  - destruct (FreeFunctions.installExitListeners s) as [r s1] eqn:Hi.
    assert (r = Ok tt) as ->.
    { destruct s. cbv in Hi. now inversion Hi. }
    run_bind. split; reflexivity.
Qed.

Lemma free_remove_result l s :
  fst (FreeFunctions.removeCleanupListener l s) = Ok (is_registered l s) /\
  registered (snd (FreeFunctions.removeCleanupListener l s))
  = set_delete l (registered s).
Proof.
  unfold FreeFunctions.removeCleanupListener, is_registered, registered.
  run_bind. destruct (cleanupListeners s) as [ls|] eqn:H; run_bind.
  - split; reflexivity.
  - cbn [fst snd]. rewrite H. split; reflexivity.
Qed.

(** ** The interceptor of the class *)

(** Only the events of the trigger table are ever subscribed to; SIGKILL,
    SIGQUIT and SIGSTOP are not among them. *)
Lemma only_intercepted_events_subscribed this behaviour evs own_pid :
  Forall (fun x => intercepted (fst x) = true)
         (subs (AsyncCleanup.run this behaviour evs (Index.init own_pid))) /\
  intercepted (EvSignal SIGKILL) = false /\
  intercepted (EvSignal SIGQUIT) = false /\
  intercepted (EvSignal SIGSTOP) = false.
Proof.
  split; [|repeat split].
  apply (run_invariant this behaviour evs (Index.init own_pid)).
  apply init_invariant.
Qed.

(** Whenever the registry of the singleton is active, triggers are
    intercepted. *)
Lemma active_registry_is_intercepted this behaviour evs own_pid :
  cleanupListeners (AsyncCleanup.run this behaviour evs (Index.init own_pid))
  <> None ->
  intercepting (AsyncCleanup.run this behaviour evs (Index.init own_pid))
  = true.
Proof.
  intros H. unfold intercepting.
  pose proof (run_active_intercepted this behaviour evs (Index.init own_pid)
                (init_invariant own_pid)) as Hne.
  destruct (subs (AsyncCleanup.run this behaviour evs (Index.init own_pid)));
    [|reflexivity].
  exfalso. apply Hne; [|exact H|reflexivity].
  rewrite init_eq. intros Hc. now elim Hc.
Qed.

(** In no state the program reaches does anything unsubscribe a handler. *)
Lemma subscriptions_only_grow this behaviour evs evs' own_pid :
  exists more,
    subs (AsyncCleanup.run this behaviour (evs ++ evs') (Index.init own_pid))
    = subs (AsyncCleanup.run this behaviour evs (Index.init own_pid))
      ++ more.
Proof.
  unfold AsyncCleanup.run. rewrite fold_left_app.
  apply (run_subs_grow this behaviour evs').
  apply (run_invariant this behaviour evs). apply init_invariant.
Qed.

(** C1, on the code as it is.  After [installExitListeners] on the
    singleton, [uninstallExitListeners] calls [removeListener] eight times
    and removes nothing: the eight handlers installed for beforeExit,
    message, uncaughtException and the five signals are all still
    subscribed. *)
Theorem uninstall_leaves_handlers_subscribed :
  let s1 := snd (AsyncCleanup.installExitListeners Index.asyncCleanup
                   (Index.init 0)) in
  let s2 := snd (AsyncCleanup.uninstallExitListeners Index.asyncCleanup s1) in
  map fst (subs s1) =
    [EvBeforeExit; EvMessage; EvUncaughtException; EvSignal SIGBREAK;
     EvSignal SIGHUP; EvSignal SIGINT; EvSignal SIGTERM; EvSignal SIGUSR2] /\
  List.length (filter is_teardown (trace s2)) = 8 /\
  subs s2 = subs s1.
Proof. vm_compute. repeat split. Qed.

(** C3, on the code as it is.  After the only listener is removed the
    registry is uninitialized and the eight handlers are still subscribed;
    the same holds once cleanup execution has detached the listeners. *)
Theorem registry_and_interception_out_of_sync :
  let removed :=
    AsyncCleanup.run Index.asyncCleanup Scenario.behaviour
      [AsyncCleanup.CallAdd 1; AsyncCleanup.CallRemove 1] (Index.init 0) in
  let cleaned :=
    AsyncCleanup.run Index.asyncCleanup Scenario.behaviour
      [AsyncCleanup.Emit (AsyncCleanup.Signal SIGINT)] Scenario.active in
  (cleanupListeners removed = None /\ List.length (subs removed) = 8 /\
   intercepting removed = true) /\
  (cleanupListeners cleaned = None /\ List.length (subs cleaned) = 8 /\
   intercepting cleaned = true).
Proof. vm_compute. repeat split. Qed.

(** ** The two implementations *)

(** C10 as stated fails on the first call: [add] of the class returns a
    remover, [addCleanupListener] of the free functions returns nothing. *)
Lemma implementations_differ_on_add :
  ~ same_interface Index.asyncCleanup [OpAdd 0].
Proof.
  unfold same_interface. intros [H _]. vm_compute in H. discriminate H.
Qed.

Lemma calls_agree ops : forall sc sf,
  registered sc = registered sf ->
  agree_all ops (fst (calls (class_call Index.asyncCleanup) ops sc))
                (fst (calls free_call ops sf)) /\
  registered (snd (calls (class_call Index.asyncCleanup) ops sc))
  = registered (snd (calls free_call ops sf)).
Proof.
  induction ops as [|op ops IH]; intros sc sf Hr.
  - split; [exact I|exact Hr].
  - cbn [calls fst snd agree_all].
    assert (Hstep :
      agree op (fst (class_call Index.asyncCleanup op sc))
               (fst (free_call op sf)) /\
      registered (snd (class_call Index.asyncCleanup op sc))
      = registered (snd (free_call op sf))).
    { destruct op as [l|l]; cbn [class_call free_call fst snd agree].
      - destruct (add_returns_remover Index.asyncCleanup l sc) as [n Hn].
        destruct (free_add_result l sf) as [Hf Hfr].
        rewrite Hn, Hf, Hfr, add_registered, Hr. cbn [value_of].
        split; [|reflexivity]. split; [|reflexivity].
        eexists. split; [reflexivity|]. split; [reflexivity|].
        now exists [].
      - destruct (remove_result Index.asyncCleanup l sc) as [Hc Hcr].
        destruct (free_remove_result l sf) as [Hf Hfr].
        rewrite Hc, Hf, Hcr, Hfr. unfold is_registered. rewrite Hr.
        cbn [value_of]. split; [|reflexivity].
        eexists. split; reflexivity. }
    destruct Hstep as [Ha Hr'].
    destruct (IH _ _ Hr') as [Hrest Hfin].
    split; [split; assumption|exact Hfin].
Qed.

(** C10, amended.  For every sequence of calls, on the singleton of the
    class and on the free functions, a removal returns the same boolean in
    both, the two listener sets hold the same listeners in the same order
    afterwards, and an addition returns a remover of the listener in the
    class where the free function returns nothing. *)
Theorem implementations_agree_on_registry ops :
  let c := calls (class_call Index.asyncCleanup) ops (Index.init 0) in
  let f := calls free_call ops (FreeFunctions.init 0) in
  agree_all ops (fst c) (fst f) /\ registered (snd c) = registered (snd f).
Proof. cbn zeta. apply calls_agree. vm_compute. reflexivity. Qed.

(** ** The statements on a run *)

(** Three listeners, SIGINT, then a second signal, an uncaught error and
    the settlements while the cleanup is under way. *)
Lemma cleanup_runs_once_witness :
  cleanupListeners Scenario.active = Some [1; 2; 3] /\
  NoDup [1; 2; 3] /\
  exited Scenario.active = None /\
  fires Scenario.active (AsyncCleanup.Emit (AsyncCleanup.Signal SIGINT))
  = true /\
  forallb no_registry_call Scenario.aftermath = true /\
  invoked (AsyncCleanup.run Index.asyncCleanup Scenario.behaviour
             (AsyncCleanup.Emit (AsyncCleanup.Signal SIGINT)
              :: Scenario.aftermath) Scenario.active)
  = invoked Scenario.active ++ [1; 2; 3].
Proof.
  assert (H1 : cleanupListeners Scenario.active = Some [1; 2; 3])
    by (vm_compute; reflexivity).
  assert (H2 : NoDup [1; 2; 3]).
  { repeat constructor; cbn; intros H;
      repeat (destruct H as [H|H]; [discriminate H|]); exact H. }
  assert (H3 : exited Scenario.active = None) by (vm_compute; reflexivity).
  assert (H4 : fires Scenario.active
                 (AsyncCleanup.Emit (AsyncCleanup.Signal SIGINT)) = true)
    by (vm_compute; reflexivity).
  assert (H5 : forallb no_registry_call Scenario.aftermath = true)
    by (vm_compute; reflexivity).
  repeat (split; [assumption|]).
  exact (proj1 (proj2
    (cleanup_runs_once Index.asyncCleanup Scenario.behaviour
       Scenario.active [1; 2; 3] _ Scenario.aftermath H1 H2 H3 H4 H5))).
Defined.

(** The three listeners, the first of which throws. *)
Lemma listeners_invoked_in_order_witness :
  cleanupListeners Scenario.active = Some [1; 2; 3] /\
  invoked (snd (AsyncCleanup.executeCleanupListeners
                  Index.asyncCleanup Scenario.behaviour Scenario.active))
  = invoked Scenario.active ++ [1; 2; 3].
Proof.
  assert (H1 : cleanupListeners Scenario.active = Some [1; 2; 3])
    by (vm_compute; reflexivity).
  split; [exact H1|].
  exact (proj1 (proj2 (proj2
    (listeners_invoked_in_order Index.asyncCleanup Scenario.behaviour
       Scenario.active [1; 2; 3] H1)))).
Defined.

(** The two promises of listeners 2 and 3, one rejected, one fulfilled. *)
Lemma cleanup_waits_for_all_results_witness :
  cleanupListeners Scenario.active = Some [1; 2; 3] /\
  exited Scenario.active = None /\
  frames Scenario.active = [] /\
  forallb passive Scenario.settlements = true /\
  let s1 := snd (AsyncCleanup.await_cleanup Index.asyncCleanup
                   Scenario.behaviour (ThenKill SIGINT) Scenario.active) in
  let s2 := AsyncCleanup.run Index.asyncCleanup Scenario.behaviour
              (Scenario.settlements ++ [AsyncCleanup.Tick]) s1 in
  trace s2 = trace s1
             ++ rejection_log s2 (collected Scenario.behaviour [1; 2; 3])
             ++ terminal_effects (pid Scenario.active) (ThenKill SIGINT) /\
  frames s2 = [].
Proof.
  assert (H1 : cleanupListeners Scenario.active = Some [1; 2; 3])
    by (vm_compute; reflexivity).
  assert (H2 : exited Scenario.active = None) by (vm_compute; reflexivity).
  assert (H3 : frames Scenario.active = []) by (vm_compute; reflexivity).
  assert (H4 : forallb passive Scenario.settlements = true)
    by (vm_compute; reflexivity).
  repeat (split; [assumption|]).
  pose proof (cleanup_waits_for_all_results Index.asyncCleanup
                Scenario.behaviour (ThenKill SIGINT) Scenario.active
                [1; 2; 3] Scenario.settlements H1 H2 H3 H4) as H.
  cbv zeta in H. destruct H as (_ & H & _).
  match type of H with
  | if ?b then _ else _ =>
      assert (Hall : b = true) by (vm_compute; reflexivity);
      rewrite Hall in H
  end.
  exact H.
Defined.

(** Listener 7 added twice to the fresh singleton, then SIGHUP. *)
Lemma add_twice_invokes_once_witness :
  distinct Scenario.fresh /\
  exited Scenario.fresh = None /\
  fires (snd (AsyncCleanup.add Index.asyncCleanup 7
                (snd (AsyncCleanup.add Index.asyncCleanup 7 Scenario.fresh))))
        (AsyncCleanup.Emit (AsyncCleanup.Signal SIGHUP)) = true /\
  count_occ Nat.eq_dec
    (invoked_since
       (snd (AsyncCleanup.add Index.asyncCleanup 7
               (snd (AsyncCleanup.add Index.asyncCleanup 7 Scenario.fresh))))
       (AsyncCleanup.step Index.asyncCleanup Scenario.behaviour
          (AsyncCleanup.Emit (AsyncCleanup.Signal SIGHUP))
          (snd (AsyncCleanup.add Index.asyncCleanup 7
                  (snd (AsyncCleanup.add Index.asyncCleanup 7
                          Scenario.fresh)))))) 7 = 1.
Proof.
  assert (H1 : distinct Scenario.fresh) by (vm_compute; constructor).
  assert (H2 : exited Scenario.fresh = None) by (vm_compute; reflexivity).
  assert (H3 : fires (snd (AsyncCleanup.add Index.asyncCleanup 7
                  (snd (AsyncCleanup.add Index.asyncCleanup 7
                          Scenario.fresh))))
                 (AsyncCleanup.Emit (AsyncCleanup.Signal SIGHUP)) = true)
    by (vm_compute; reflexivity).
  repeat (split; [assumption|]).
  exact (proj2 (proj2
    (add_twice_invokes_once Index.asyncCleanup Scenario.behaviour 7
       Scenario.fresh (AsyncCleanup.Emit (AsyncCleanup.Signal SIGHUP))
       H1 H2 H3))).
Defined.

(** [exitAfterCleanup(3)] with no listener registered. *)
Lemma exitAfterCleanup_exits_with_code_witness :
  exited Scenario.fresh = None /\
  frames Scenario.fresh = [] /\
  forallb passive [] = true /\
  cleanupListeners Scenario.fresh = None /\
  exited (AsyncCleanup.run Index.asyncCleanup Scenario.behaviour
            ([] ++ [AsyncCleanup.Tick])
            (snd (AsyncCleanup.exitAfterCleanup Index.asyncCleanup
                    Scenario.behaviour (Some 3%Z) Scenario.fresh)))
  = Some 3%Z.
Proof.
  assert (H1 : exited Scenario.fresh = None) by (vm_compute; reflexivity).
  assert (H2 : frames Scenario.fresh = []) by (vm_compute; reflexivity).
  assert (H3 : forallb passive [] = true) by reflexivity.
  assert (H4 : cleanupListeners Scenario.fresh = None)
    by (vm_compute; reflexivity).
  repeat (split; [assumption|]).
  exact (proj1 (proj2
    (proj2 (proj2 (proj2
       (exitAfterCleanup_exits_with_code Index.asyncCleanup
          Scenario.behaviour (Some 3%Z) Scenario.fresh [] H1 H2 H3))) H4))).
Defined.

(** SIGINT with three listeners registered, and a message that is not
    the shutdown request. *)
Lemma signal_is_raised_again_witness :
  exited Scenario.active = None /\
  frames Scenario.active = [] /\
  forallb passive Scenario.settlements = true /\
  "hello"%string <> "shutdown"%string /\
  (let s1 := snd (AsyncCleanup.signalListener Index.asyncCleanup
                    Scenario.behaviour SIGINT Scenario.active) in
   let s2 := AsyncCleanup.run Index.asyncCleanup Scenario.behaviour
               (Scenario.settlements ++ [AsyncCleanup.Tick]) s1 in
   trace s2 = trace s1
              ++ rejection_log s2
                   (collected Scenario.behaviour (registered Scenario.active))
              ++ [ProcessKill (pid Scenario.active) SIGINT] /\
   exited s2 = None) /\
  AsyncCleanup.pm2ClusterShutdownListener Index.asyncCleanup
    Scenario.behaviour "hello" Scenario.active = (Ok tt, Scenario.active).
Proof.
  assert (H1 : exited Scenario.active = None) by (vm_compute; reflexivity).
  assert (H2 : frames Scenario.active = []) by (vm_compute; reflexivity).
  assert (H3 : forallb passive Scenario.settlements = true)
    by (vm_compute; reflexivity).
  assert (H4 : "hello"%string <> "shutdown"%string) by discriminate.
  repeat (split; [assumption|]).
  pose proof (signal_is_raised_again Index.asyncCleanup Scenario.behaviour
                SIGINT "hello" Scenario.active Scenario.settlements
                H1 H2 H3) as H.
  cbv zeta in H. destruct H as ((_ & H) & _ & Hother).
  match type of H with
  | if ?b then _ else _ =>
      assert (Hall : b = true) by (vm_compute; reflexivity);
      rewrite Hall in H
  end.
  split; [exact H|exact (Hother H4)].
Defined.

(** A rejected promise does not end the wait: the call suspended by
    [killAfterCleanup] does nothing when promise 30 is rejected, and logs
    the rejection and sends the signal only once promise 20 has settled
    too. *)
Example rejection_does_not_end_the_wait :
  let s1 := snd (AsyncCleanup.killAfterCleanup Index.asyncCleanup
                   Scenario.behaviour SIGINT Scenario.active) in
  let s2 := AsyncCleanup.run Index.asyncCleanup Scenario.behaviour
              [AsyncCleanup.Settle 30 (Rejected "lost connection"%string);
               AsyncCleanup.Tick] s1 in
  let s3 := AsyncCleanup.run Index.asyncCleanup Scenario.behaviour
              [AsyncCleanup.Settle 20 Fulfilled; AsyncCleanup.Tick] s2 in
  invoked_since Scenario.active s1 = [1; 2; 3] /\
  trace s2 = trace s1 /\ frames s2 = frames s1 /\
  trace_since s2 s3 =
    [ConsoleError "Unhandled rejection during cleanup" "lost connection"%string;
     ProcessKill 4242 SIGINT].
Proof. vm_compute. repeat split. Qed.

(** With the handlers left subscribed, a second trigger during the cleanup
    reaches the program again: the listeners are not invoked a second
    time. *)
Example second_trigger_invokes_nothing :
  let s1 := AsyncCleanup.run Index.asyncCleanup Scenario.behaviour
              [AsyncCleanup.Emit (AsyncCleanup.Signal SIGINT)]
              Scenario.active in
  let s2 := AsyncCleanup.run Index.asyncCleanup Scenario.behaviour
              [AsyncCleanup.Emit (AsyncCleanup.Signal SIGTERM)] s1 in
  invoked s1 = [1; 2; 3] /\ invoked s2 = [1; 2; 3] /\
  trace_since s1 s2 = [ConsoleLog "Exiting due to signal SIGTERM"].
Proof. vm_compute. repeat split. Qed.

(** ** More on the registry of the class *)

Lemma set_has_add_other l l' ls :
  l <> l' -> set_has l (set_add l' ls) = set_has l ls.
Proof.
  intros Hne. unfold set_add. destruct (set_has l' ls); [reflexivity|].
  unfold set_has. rewrite existsb_app. cbn [existsb].
  replace (Nat.eqb l l') with false by (symmetry; now apply Nat.eqb_neq).
  now rewrite !orb_false_r.
Qed.

Lemma set_has_delete_other l l' ls :
  l <> l' -> set_has l (set_delete l' ls) = set_has l ls.
Proof.
  intros Hne. unfold set_has, set_delete.
  induction ls as [|x ls IH]; [reflexivity|]. cbn [filter existsb].
  destruct (Nat.eqb l' x) eqn:E; cbn [negb].
  - apply Nat.eqb_eq in E. subst x.
    replace (Nat.eqb l l') with false by (symmetry; now apply Nat.eqb_neq).
    exact IH.
  - cbn [existsb]. now rewrite IH.
Qed.

Lemma set_add_delete l ls :
  set_add l (set_delete l ls) = set_delete l ls ++ [l].
Proof. unfold set_add. now rewrite set_has_delete. Qed.

Lemma not_in_set_delete l ls : ~ In l (set_delete l ls).
Proof.
  intros H. apply set_has_In in H. rewrite set_has_delete in H. discriminate.
Qed.

Section MoreOnTheRegistry.

Variable this : AsyncCleanup.Instance.
Variable behaviour : CleanupListener -> Behaviour.

(** [add] and [remove] invoke nothing and do not end the process. *)
Lemma add_quiet l s :
  invoked (snd (AsyncCleanup.add this l s)) = invoked s /\
  exited (snd (AsyncCleanup.add this l s)) = exited s.
Proof.
  destruct (cleanupListeners s) as [ls|] eqn:H.
  - rewrite (add_active this l s ls H). split; reflexivity.
  - rewrite (add_uninitialized this l s H). split; [|reflexivity].
    unfold invoked. cbn [snd trace]. rewrite flat_map_app.
    unfold installed_handlers. cbn. apply app_nil_r.
Qed.

Lemma remove_quiet l s :
  invoked (snd (AsyncCleanup.remove this l s)) = invoked s /\
  exited (snd (AsyncCleanup.remove this l s)) = exited s.
Proof.
  destruct (cleanupListeners s) as [ls|] eqn:H.
  - destruct (set_delete l ls) as [|x r] eqn:Hd.
    + rewrite (remove_final this l s ls H Hd). split; [|reflexivity].
      unfold invoked. cbn [snd trace]. rewrite flat_map_app.
      unfold teardown_calls. cbn. apply app_nil_r.
    + rewrite (remove_other this l s ls H) by (rewrite Hd; discriminate).
      split; reflexivity.
  - rewrite (remove_uninitialized this l s H). split; reflexivity.
Qed.

(** The registry after a step that starts the cleanup, whatever it held. *)
Lemma fires_invokes_registered ev evs s :
  exited s = None -> fires s ev = true ->
  forallb no_registry_call evs = true ->
  invoked (AsyncCleanup.run this behaviour (ev :: evs) s)
  = invoked s ++ registered s.
Proof.
  intros He Hf Hevs. cbn [AsyncCleanup.run fold_left].
  fold (AsyncCleanup.run this behaviour evs
          (AsyncCleanup.step this behaviour ev s)).
  pose proof (run_cleanup_or_nothing this behaviour evs
                (AsyncCleanup.step this behaviour ev s) Hevs) as Hrest.
  unfold registered. destruct (cleanupListeners s) as [ls|] eqn:Hs.
  - destruct (step_fires this behaviour ev s ls Hf He Hs) as [Hn Hi].
    destruct (detached_stays_detached _ _ Hrest Hn) as [_ Hi']. congruence.
  - assert (Hev : no_registry_call ev = true) by (destruct ev; auto).
    pose proof (step_cleanup_or_nothing this behaviour ev s Hev) as Hstep.
    destruct (detached_stays_detached _ _ Hstep Hs) as [Hn Hi].
    destruct (detached_stays_detached _ _ Hrest Hn) as [_ Hi'].
    rewrite app_nil_r. congruence.
Qed.

(** Membership in the registry: [add(L)] registers [L], [remove(L)]
    unregisters it, and neither touches the registration of another
    listener. *)
Theorem registry_membership l l' s :
  l <> l' ->
  is_registered l (snd (AsyncCleanup.add this l s)) = true /\
  is_registered l (snd (AsyncCleanup.remove this l s)) = false /\
  is_registered l (snd (AsyncCleanup.add this l' s)) = is_registered l s /\
  is_registered l (snd (AsyncCleanup.remove this l' s)) = is_registered l s.
Proof.
  intros Hne. unfold is_registered.
  rewrite !add_registered.
  destruct (remove_result this l s) as [_ ->].
  destruct (remove_result this l' s) as [_ ->].
  split; [apply set_add_has|]. split; [apply set_has_delete|].
  split; [now apply set_has_add_other|now apply set_has_delete_other].
Qed.

(** A listener that is removed and added again is registered last, behind
    the listeners that stayed, and a trigger then invokes the listeners in
    that order. *)
Theorem readded_listener_runs_last l s ev :
  exited s = None ->
  let s' := snd (AsyncCleanup.add this l
                   (snd (AsyncCleanup.remove this l s))) in
  fires s' ev = true ->
  registered s' = set_delete l (registered s) ++ [l] /\
  invoked (AsyncCleanup.step this behaviour ev s')
  = invoked s ++ set_delete l (registered s) ++ [l].
Proof.
  intros He. cbn zeta. intros Hf.
  set (s1 := snd (AsyncCleanup.remove this l s)) in *.
  destruct (remove_result this l s) as [_ Hr1]. fold s1 in Hr1.
  destruct (remove_quiet l s) as [Hi1 He1]. fold s1 in Hi1, He1.
  destruct (add_quiet l s1) as [Hi2 He2].
  assert (Hr2 : registered (snd (AsyncCleanup.add this l s1))
                = set_delete l (registered s) ++ [l]).
  { rewrite add_registered, Hr1. apply set_add_delete. }
  split; [exact Hr2|].
  assert (He3 : exited (snd (AsyncCleanup.add this l s1)) = None)
    by congruence.
  pose proof (fires_invokes_registered ev [] _ He3 Hf eq_refl) as H.
  cbn [AsyncCleanup.run fold_left] in H. rewrite H, Hr2, Hi2, Hi1.
  reflexivity.
Qed.

(** A listener that was removed is not invoked: after [remove(L)], a trigger
    invokes the listeners that are left, in their order, and never [L]. *)
Theorem removed_listener_is_not_invoked l s ev evs :
  exited s = None ->
  let s' := snd (AsyncCleanup.remove this l s) in
  fires s' ev = true -> forallb no_registry_call evs = true ->
  invoked (AsyncCleanup.run this behaviour (ev :: evs) s')
  = invoked s ++ set_delete l (registered s) /\
  ~ In l (invoked_since s (AsyncCleanup.run this behaviour (ev :: evs) s')).
Proof.
  intros He. cbn zeta. intros Hf Hevs.
  destruct (remove_result this l s) as [_ Hr].
  destruct (remove_quiet l s) as [Hi He'].
  assert (H : invoked (AsyncCleanup.run this behaviour (ev :: evs)
                         (snd (AsyncCleanup.remove this l s)))
              = invoked s ++ set_delete l (registered s)).
  { assert (He2 : exited (snd (AsyncCleanup.remove this l s)) = None)
      by congruence.
    rewrite (fires_invokes_registered ev evs _ He2 Hf Hevs).
    now rewrite Hi, Hr. }
  split; [exact H|].
  rewrite (invoked_since_app _ _ _ H). apply not_in_set_delete.
Qed.

(** The remover that [add(L)] returns removes [L]: calling it, in whatever
    state, does what [remove(L)] does. *)
Theorem remover_removes l s :
  bound_instance this ->
  exists remover,
    fst (AsyncCleanup.add this l s) = Ok remover /\
    forall s',
      AsyncCleanup.step this behaviour (AsyncCleanup.CallRemover remover) s'
      = AsyncCleanup.step this behaviour (AsyncCleanup.CallRemove l) s'.
Proof.
  intros Hb. destruct (add_returns_remover this l s) as [n Hn].
  eexists. split; [exact Hn|]. intros s'.
  destruct (Hb MRemove) as [Hm Hbound].
  unfold AsyncCleanup.step. cbn [fn_method fn_bound].
  rewrite Hm, Hbound. reflexivity.
Qed.

(** [add] subscribes the eight handlers when it finds the registry
    uninitialized, and only then; they are the handlers of beforeExit,
    message, uncaughtException and the five listened signals, in this
    order. *)
Theorem add_installs_on_first_listener l s :
  subs (snd (AsyncCleanup.add this l s)) =
    match cleanupListeners s with
    | None => subs s ++ installed_handlers this (next_fn s)
    | Some _ => subs s
    end /\
  filter (fun e => negb (observable e))
         (trace_since s (snd (AsyncCleanup.add this l s))) =
    match cleanupListeners s with
    | None => map (fun x => ProcessOn (fst x) (snd x))
                  (installed_handlers this (next_fn s))
    | Some _ => []
    end /\
  map fst (installed_handlers this (next_fn s)) =
    [EvBeforeExit; EvMessage; EvUncaughtException; EvSignal SIGBREAK;
     EvSignal SIGHUP; EvSignal SIGINT; EvSignal SIGTERM; EvSignal SIGUSR2].
Proof.
  unfold trace_since. destruct (cleanupListeners s) as [ls|] eqn:H.
  - rewrite (add_active this l s ls H). cbn [snd subs trace].
    rewrite skipn_all. repeat split.
  - rewrite (add_uninitialized this l s H). cbn [snd subs trace].
    rewrite skipn_app, skipn_all, Nat.sub_diag. repeat split.
Qed.

End MoreOnTheRegistry.

(** ** The handlers and the terminal actions of the class *)

Lemma bind_ret_unit (m : M unit) s :
  fst (m s) = Ok tt -> bind m (fun _ => ret tt) s = m s.
Proof.
  intros H. rewrite bind_eq. destruct (m s) as [r s']. cbn [fst] in H.
  now subst r.
Qed.

Section HandlersOfTheClass.

Variable this : AsyncCleanup.Instance.
Variable behaviour : CleanupListener -> Behaviour.

(** A log line, then a call that awaits the cleanup: the trace it leaves. *)
Lemma logged_await_trace (e : Effect) k s evs :
  exited s = None -> frames s = [] -> forallb passive evs = true ->
  let ps := collected behaviour (registered s) in
  let s1 := snd (AsyncCleanup.await_cleanup this behaviour k
                   (emit_effect e s)) in
  let s2 := AsyncCleanup.run this behaviour (evs ++ [AsyncCleanup.Tick]) s1 in
  trace s1 = trace s ++ e :: cleanup_effects this behaviour s /\
  if all_settled s2 ps
  then trace s2 = trace s1 ++ rejection_log s2 ps
                          ++ terminal_effects (pid s) k /\
       exited s2 = exit_code k
  else trace s2 = trace s1 /\ exited s2 = None.
Proof.
  intros He Hfr Hp. cbn zeta.
  pose proof (await_cleanup_trace this behaviour k (emit_effect e s) evs
                He Hfr Hp) as H.
  cbn zeta in H. destruct H as (Ht1 & _ & _ & Hout).
  split; [|exact Hout].
  rewrite Ht1. unfold emit_effect. cbn [trace set_trace].
  rewrite <- app_assoc. reflexivity.
Qed.

(** On the subscriptions of one [installExitListeners], an event of the
    runtime runs the handler of its row of the trigger table, once, and a
    signal that is not listened for runs nothing. *)
Theorem emit_reaches_its_handler t n s :
  bound_instance this -> subs s = installed_handlers this n ->
  AsyncCleanup.emit this behaviour t s = handler this behaviour t s.
Proof.
  intros Hb Hs. unfold AsyncCleanup.emit. rewrite Hs.
  unfold installed_handlers, handler.
  destruct (Hb MBeforeExitListener) as [Hm1 _].
  destruct (Hb MPm2ClusterShutdownListener) as [Hm2 _].
  destruct (Hb MUncaughtExceptionListener) as [Hm3 _].
  destruct (Hb MSignalListener) as [Hm4 _].
  destruct t as [code|m|e|sg]; [| | |destruct sg];
    cbn [filter map app event_eqb signal_eqb AsyncCleanup.event_of fst snd
         existsb orb AsyncCleanup.listenedSignals forEach];
    try reflexivity;
    rewrite bind_ret_unit by apply call_handler_ok;
    unfold AsyncCleanup.call_handler; cbn [fn_method];
    rewrite ?Hm1, ?Hm2, ?Hm3, ?Hm4; reflexivity.
Qed.


(** The handler of an uncaught exception logs the error, runs the cleanup,
    and exits with code 1 once every promise of the listeners has
    settled. *)
Theorem uncaught_exception_exits_with_1 error s evs :
  exited s = None -> frames s = [] -> forallb passive evs = true ->
  let ps := collected behaviour (registered s) in
  let s1 := snd (AsyncCleanup.uncaughtExceptionListener
                   this behaviour error s) in
  let s2 := AsyncCleanup.run this behaviour (evs ++ [AsyncCleanup.Tick]) s1 in
  trace s1 = trace s
             ++ ConsoleError "Exiting with code 1 due to uncaught exception"
                             error
             :: cleanup_effects this behaviour s /\
  if all_settled s2 ps
  then trace s2 = trace s1 ++ rejection_log s2 ps ++ [ProcessExit 1] /\
       exited s2 = Some 1%Z
  else trace s2 = trace s1 /\ exited s2 = None.
Proof.
  intros He Hfr Hp. cbn zeta.
  unfold AsyncCleanup.uncaughtExceptionListener,
    AsyncCleanup.exitAfterCleanup, console_error.
  rewrite bind_eq, modify_eq.
  exact (logged_await_trace _ (ThenExit 1) s evs He Hfr Hp).
Qed.

(** [killAfterCleanup(signal)], for any of the eight signals, sends the
    signal to the process itself after the listeners have run and their
    promises have settled, not before, and does not exit. *)
Theorem killAfterCleanup_sends_signal_last signal s evs :
  exited s = None -> frames s = [] -> forallb passive evs = true ->
  let ps := collected behaviour (registered s) in
  let s1 := snd (AsyncCleanup.killAfterCleanup this behaviour signal s) in
  let s2 := AsyncCleanup.run this behaviour (evs ++ [AsyncCleanup.Tick]) s1 in
  invoked s1 = invoked s ++ registered s /\
  if all_settled s2 ps
  then trace s2 = trace s1 ++ rejection_log s2 ps
                          ++ [ProcessKill (pid s) signal] /\
       exited s2 = None
  else trace s2 = trace s1 /\ exited s2 = None.
Proof.
  intros He Hfr Hp. cbn zeta. unfold AsyncCleanup.killAfterCleanup.
  pose proof (await_cleanup_trace this behaviour (ThenKill signal) s evs
                He Hfr Hp) as H.
  cbn zeta in H. destruct H as (_ & _ & _ & Hout).
  split; [|exact Hout].
  unfold registered. destruct (cleanupListeners s) as [ls|] eqn:Hs.
  - apply (await_cleanup_detaches this behaviour _ s ls Hs).
  - rewrite (await_cleanup_none this behaviour _ s Hs). cbn [snd].
    rewrite app_nil_r. reflexivity.
Qed.

End HandlersOfTheClass.

(** ** Waiting, and not waiting *)

Lemma resume_ready_settled frs : forall s,
  settled (AsyncCleanup.resume_ready frs s) = settled s.
Proof.
  induction frs as [|fr frs IH]; intros s; cbn [AsyncCleanup.resume_ready];
    [reflexivity|].
  destruct (exited s); [reflexivity|]. destruct (ready s fr); rewrite IH.
  - destruct (fr_await fr) as [|err|ps] eqn:Ha.
    + now rewrite resume_eq by (rewrite Ha; discriminate).
    + now rewrite (resume_failed fr s err Ha).
    + now rewrite resume_eq by (rewrite Ha; discriminate).
  - reflexivity.
Qed.

(** With none of the frames [frs] ready, a turn of the job queue leaves them
    suspended and goes on with the frames after them. *)
Lemma resume_ready_skips frs rest : forall s,
  exited s = None -> existsb (ready s) frs = false ->
  AsyncCleanup.resume_ready (frs ++ rest) s
  = AsyncCleanup.resume_ready rest (set_frames (frames s ++ frs) s).
Proof.
  induction frs as [|fr frs IH]; intros s He Hr.
  - cbn [app]. rewrite app_nil_r. now rewrite set_frames_same.
  - cbn [existsb] in Hr. apply orb_false_iff in Hr. destruct Hr as [Hfr Hfrs].
    cbn [app AsyncCleanup.resume_ready]. rewrite He, Hfr.
    rewrite IH; [|exact He|exact Hfrs].
    unfold push_frame. cbn [frames set_frames].
    rewrite <- app_assoc. destruct s; reflexivity.
Qed.

Lemma find_app_none {A} (f : A -> bool) l l' :
  find f l = None -> find f (l ++ l') = find f l'.
Proof.
  induction l as [|a l IH]; cbn; [reflexivity|].
  destruct (f a); [discriminate|exact IH].
Qed.

Section Waiting.

Variable this : AsyncCleanup.Instance.
Variable behaviour : CleanupListener -> Behaviour.

Lemma passive_run_unsettled p evs : forall s,
  forallb passive evs = true -> never_settles p evs = true ->
  is_settled (AsyncCleanup.run this behaviour evs s) p = is_settled s p.
Proof.
  induction evs as [|ev evs IH]; intros s Hp Hn; [reflexivity|].
  cbn [forallb never_settles] in Hp, Hn.
  apply andb_true_iff in Hp. destruct Hp as [Hev Hp].
  unfold never_settles in Hn. cbn [forallb] in Hn.
  apply andb_true_iff in Hn. destruct Hn as [Hq Hn].
  cbn [AsyncCleanup.run fold_left].
  fold (AsyncCleanup.run this behaviour evs
          (AsyncCleanup.step this behaviour ev s)).
  rewrite (IH _ Hp Hn). unfold AsyncCleanup.step.
  destruct (exited s); [reflexivity|].
  destruct ev as [| | | | | |q r|]; try discriminate.
  - unfold settle. destruct (is_settled s q) eqn:Hs; [reflexivity|].
    unfold is_settled, lookup_settled. cbn [settled set_settled].
    destruct (find (fun x => Nat.eqb p (fst x)) (settled s)) as [y|] eqn:Hf.
    + pose proof (find_app_some _ _ [(q, r)] _ Hf) as Hf'.
      unfold PromiseId in *. now rewrite Hf'.
    + pose proof (find_app_none _ _ [(q, r)] Hf) as Hf'.
      unfold PromiseId in *. rewrite Hf'. cbn [find fst].
      apply negb_true_iff in Hq. now rewrite Hq.
  - unfold AsyncCleanup.tick, is_settled, lookup_settled.
    now rewrite resume_ready_settled.
Qed.

Lemma all_settled_In s ps p :
  all_settled s ps = true -> In p ps -> is_settled s p = true.
Proof.
  unfold all_settled. rewrite forallb_forall. auto.
Qed.

Lemma await_cleanup_keeps_waiting k p s evs :
  exited s = None -> frames s = [] -> forallb passive evs = true ->
  In p (collected behaviour (registered s)) ->
  is_settled s p = false -> never_settles p evs = true ->
  let s1 := snd (AsyncCleanup.await_cleanup this behaviour k s) in
  let s2 := AsyncCleanup.run this behaviour evs s1 in
  trace s2 = trace s1 /\ exited s2 = None /\ frames s2 = frames s1.
Proof.
  intros He Hfr Hp Hin Hun Hnever. cbn zeta.
  destruct (cleanupListeners s) as [ls|] eqn:Hs;
    [|unfold registered in Hin; rewrite Hs in Hin; destruct Hin].
  unfold registered in Hin. rewrite Hs in Hin.
  rewrite (await_cleanup_some this behaviour k s ls Hs). cbn [snd].
  set (fr := mkFrame (AllSettled (collected behaviour ls)) k).
  set (s1 := push_frame fr (suspended this behaviour ls s)).
  assert (Hfr1 : frames s1 = [fr]).
  { unfold s1, push_frame, suspended. cbn [frames set_frames].
    now rewrite Hfr. }
  assert (H0 : still_waiting s1 fr s1 \/ finished s1 fr s1).
  { left. repeat split; assumption. }
  assert (Hf : forall err, fr_await fr <> Failed err) by discriminate.
  pose proof (passive_run_unsettled p evs s1 Hp Hnever) as Hstill.
  destruct (passive_run this behaviour s1 fr evs s1 Hf Hp H0)
    as [(He2 & Hf2 & Ht2 & _)|(Hall & _)].
  - split; [exact Ht2|]. split; [exact He2|]. congruence.
  - exfalso. pose proof (all_settled_In _ _ p Hall Hin) as Hset.
    rewrite Hstill in Hset.
    change (is_settled s1 p) with (is_settled s p) in Hset. congruence.
Qed.

(** There is no timeout.  While one promise returned by a listener stays
    unsettled, [exitAfterCleanup] and [killAfterCleanup] do nothing more
    after the listeners have been called: no rejection is logged and the
    process neither exits nor receives the signal, however many other
    promises settle. *)
Theorem cleanup_never_times_out code signal p s evs :
  exited s = None -> frames s = [] -> forallb passive evs = true ->
  In p (collected behaviour (registered s)) ->
  is_settled s p = false -> never_settles p evs = true ->
  (let s1 := snd (AsyncCleanup.exitAfterCleanup this behaviour code s) in
   let s2 := AsyncCleanup.run this behaviour evs s1 in
   trace s2 = trace s1 /\ exited s2 = None /\ frames s2 = frames s1) /\
  (let s1 := snd (AsyncCleanup.killAfterCleanup this behaviour signal s) in
   let s2 := AsyncCleanup.run this behaviour evs s1 in
   trace s2 = trace s1 /\ exited s2 = None /\ frames s2 = frames s1).
Proof.
  intros He Hfr Hp Hin Hun Hnever. split.
  - exact (await_cleanup_keeps_waiting _ p s evs He Hfr Hp Hin Hun Hnever).
  - exact (await_cleanup_keeps_waiting _ p s evs He Hfr Hp Hin Hun Hnever).
Qed.

(** [exitAfterCleanup] called while an earlier cleanup is still waiting for
    its listeners does not wait for them: the registry is uninitialized, so
    the call exits with its code at the next turn of the job queue, while
    the earlier call is still suspended. *)
Theorem exit_during_cleanup_does_not_wait code s :
  exited s = None -> cleanupListeners s = None ->
  existsb (ready s) (frames s) = false ->
  let c := match code with Some c => c | None => 0%Z end in
  let s2 := AsyncCleanup.tick
              (snd (AsyncCleanup.exitAfterCleanup this behaviour code s)) in
  exited s2 = Some c /\ trace s2 = trace s ++ [ProcessExit c] /\
  frames s2 = frames s /\ invoked s2 = invoked s.
Proof.
  intros He Hn Hr. cbn zeta. unfold AsyncCleanup.exitAfterCleanup.
  rewrite (await_cleanup_none this behaviour _ s Hn). cbn [snd].
  unfold AsyncCleanup.tick, push_frame. cbn [frames set_frames].
  rewrite resume_ready_skips; [|exact He|exact Hr].
  cbn [AsyncCleanup.resume_ready exited set_frames frames app ready
       fr_await].
  rewrite He. rewrite resume_eq by discriminate.
  cbn [exited frames trace exit_code fr_then fr_await awaited rejection_log
       flat_map terminal_effects set_frames app].
  repeat split. unfold invoked. cbn [trace]. rewrite flat_map_app.
  cbn. apply app_nil_r.
Qed.

End Waiting.

(** ** Construction and loading *)

(** [new AsyncCleanup()] replaces each of the eleven methods by a function
    bound to the instance: a new object for each, running the same method.
    Nothing else changes: no handler is subscribed and the registry stays
    uninitialized. *)
Theorem constructor_binds_every_method s :
  exists this,
    AsyncCleanup.constructor s = (Ok this, set_next_fn (11 + next_fn s) s) /\
    (forall m, AsyncCleanup.method_of this m
               = mkFn (method_index m + next_fn s) m []) /\
    bound_instance this.
Proof.
  destruct s as [cl n sb st fr ex p tr]. eexists. split; [|split].
  - cbv. reflexivity.
  - intros m. destruct m; reflexivity.
  - intros m. destruct m; split; reflexivity.
Qed.

(** Loading index.ts makes the singleton and binds the four functions it
    exports to it; it subscribes to nothing and registers nothing. *)
Theorem loading_subscribes_nothing s :
  exists this exports,
    Index.load s = (Ok (this, exports), set_next_fn (15 + next_fn s) s) /\
    bound_instance this /\
    map fn_method
        [Index.addCleanupListener exports;
         Index.removeCleanupListener exports;
         Index.exitAfterCleanup exports; Index.killAfterCleanup exports]
    = [MAdd; MRemove; MExitAfterCleanup; MKillAfterCleanup] /\
    NoDup (map fn_id
             [Index.addCleanupListener exports;
              Index.removeCleanupListener exports;
              Index.exitAfterCleanup exports;
              Index.killAfterCleanup exports]).
Proof.
  destruct s as [cl n sb st fr ex p tr]. do 2 eexists. split; [|split].
  - cbv. reflexivity.
  - intros m. destruct m; split; reflexivity.
  - split; [reflexivity|]. cbn.
    repeat constructor; cbn; intros H;
      repeat (destruct H as [H|H]; [lia|]); exact H.
Qed.

Lemma singleton_is_bound : bound_instance Index.asyncCleanup.
Proof. intros m. destruct m; split; reflexivity. Qed.

(** Shared code: the loops and the job queue of the two implementations are
    the same functions. *)
Lemma free_call_listeners_same behaviour :
  FreeFunctions.call_listeners behaviour
  = AsyncCleanup.call_listeners behaviour.
Proof. reflexivity. Qed.


Lemma free_tick_same : FreeFunctions.tick = AsyncCleanup.tick.
Proof. reflexivity. Qed.

(** ** The free functions, as equations on the state *)

Lemma free_install_eq s :
  FreeFunctions.installExitListeners s =
  (Ok tt,
   mkState (cleanupListeners s) (next_fn s) (subs s ++ free_handlers)
           (settled s) (frames s) (exited s) (pid s)
           (trace s ++ map (fun x => ProcessOn (fst x) (snd x))
                           free_handlers)).
Proof.
  destruct s. unfold free_handlers.
  cbv [FreeFunctions.installExitListeners FreeFunctions.listenedSignals
       forEach bind process_on modify emit_effect ret set_subs set_trace
       cleanupListeners next_fn subs settled frames exited pid trace
       map fst snd].
  rewrite <- !app_assoc. reflexivity.
Qed.

Lemma free_uninstall_eq s :
  FreeFunctions.uninstallExitListeners s =
  (Ok tt,
   mkState (cleanupListeners s) (next_fn s) (free_after_teardown (subs s))
           (settled s) (frames s) (exited s) (pid s)
           (trace s ++ free_teardown_calls)).
Proof.
  destruct s. unfold free_after_teardown, free_teardown_calls, free_handlers.
  cbv [FreeFunctions.uninstallExitListeners FreeFunctions.listenedSignals
       forEach bind process_removeListener modify emit_effect ret
       set_subs set_trace
       cleanupListeners next_fn subs settled frames exited pid trace
       fold_left unsubscribe map fst snd].
  rewrite <- !app_assoc. reflexivity.
Qed.

Lemma free_after_teardown_installed sb :
  free_after_teardown (sb ++ free_handlers) = sb.
Proof.
  unfold free_after_teardown, free_teardown_calls, free_handlers.
  cbn [map fold_left unsubscribe fst snd].
  repeat (rewrite remove_last_app_r by reflexivity;
          cbn [remove_last existsb subscribed_as event_eqb signal_eqb
               same_object fst snd fn_id FreeFunctions.fn method_index
               Nat.eqb andb orb]).
  apply app_nil_r.
Qed.

Lemma free_after_teardown_handlers : free_after_teardown free_handlers = [].
Proof. exact (free_after_teardown_installed []). Qed.

Lemma free_after_teardown_nil : free_after_teardown [] = [].
Proof. reflexivity. Qed.

Lemma free_add_uninitialized l s :
  cleanupListeners s = None ->
  FreeFunctions.addCleanupListener l s =
  (Ok tt,
   mkState (Some [l]) (next_fn s) (subs s ++ free_handlers)
           (settled s) (frames s) (exited s) (pid s)
           (trace s ++ map (fun x => ProcessOn (fst x) (snd x))
                           free_handlers)).
Proof.
  intros H. unfold FreeFunctions.addCleanupListener. run_bind. rewrite H.
  run_bind. rewrite free_install_eq. cbv beta iota. run_bind. reflexivity.
Qed.

Lemma free_add_active l s ls :
  cleanupListeners s = Some ls ->
  FreeFunctions.addCleanupListener l s =
  (Ok tt, set_cleanupListeners (Some (set_add l ls)) s).
Proof.
  intros H. unfold FreeFunctions.addCleanupListener. run_bind. rewrite H.
  run_bind. rewrite H. reflexivity.
Qed.

Lemma free_remove_uninitialized l s :
  cleanupListeners s = None ->
  FreeFunctions.removeCleanupListener l s = (Ok false, s).
Proof.
  intros H. unfold FreeFunctions.removeCleanupListener. run_bind.
  now rewrite H.
Qed.

Lemma free_remove_active l s ls :
  cleanupListeners s = Some ls ->
  FreeFunctions.removeCleanupListener l s =
  (Ok (set_has l ls), set_cleanupListeners (Some (set_delete l ls)) s).
Proof.
  intros H. unfold FreeFunctions.removeCleanupListener. run_bind.
  rewrite H. run_bind. reflexivity.
Qed.

Section FreeFunctionsProperties.

Variable behaviour : CleanupListener -> Behaviour.

Lemma free_execute_none s :
  cleanupListeners s = None ->
  FreeFunctions.executeCleanupListeners behaviour s = (Ok Returned, s).
Proof.
  intros H. unfold FreeFunctions.executeCleanupListeners. run_bind.
  now rewrite H.
Qed.

Lemma free_execute_some s ls :
  cleanupListeners s = Some ls ->
  FreeFunctions.executeCleanupListeners behaviour s =
  (Ok (AllSettled (collected behaviour ls)), free_suspended behaviour ls s).
Proof.
  intros H. unfold FreeFunctions.executeCleanupListeners. run_bind.
  rewrite H. run_bind. rewrite free_uninstall_eq. cbv beta iota. run_bind.
  rewrite free_call_listeners_same, call_listeners_eq. cbv beta iota.
  run_bind. unfold free_suspended. cbn [app].
  unfold set_trace, set_cleanupListeners.
  cbn [cleanupListeners next_fn subs settled frames exited pid trace].
  rewrite <- app_assoc. reflexivity.
Qed.

Lemma free_await_none k s :
  cleanupListeners s = None ->
  FreeFunctions.await_cleanup behaviour k s =
  (Ok tt, push_frame (mkFrame Returned k) s).
Proof.
  intros H. unfold FreeFunctions.await_cleanup.
  now rewrite free_execute_none.
Qed.

Lemma free_await_some k s ls :
  cleanupListeners s = Some ls ->
  FreeFunctions.await_cleanup behaviour k s =
  (Ok tt, push_frame (mkFrame (AllSettled (collected behaviour ls)) k)
                     (free_suspended behaviour ls s)).
Proof.
  intros H. unfold FreeFunctions.await_cleanup.
  now rewrite (free_execute_some s ls H).
Qed.

Lemma free_await_ok k s :
  fst (FreeFunctions.await_cleanup behaviour k s) = Ok tt.
Proof.
  destruct (cleanupListeners s) as [ls|] eqn:H.
  - now rewrite (free_await_some k s ls H).
  - now rewrite (free_await_none k s H).
Qed.

End FreeFunctionsProperties.

(** ** The interceptor of the free functions *)

Section FreeInterceptor.

Variable behaviour : CleanupListener -> Behaviour.

Lemma free_call_handler_ok f t s :
  fst (FreeFunctions.call_handler behaviour f t s) = Ok tt.
Proof.
  unfold FreeFunctions.call_handler.
  destruct (fn_method f), t; try reflexivity;
    unfold FreeFunctions.beforeExitListener,
      FreeFunctions.uncaughtExceptionListener, FreeFunctions.signalListener,
      FreeFunctions.pm2ClusterShutdownListener,
      FreeFunctions.exitAfterCleanup, FreeFunctions.killAfterCleanup,
      console_log, console_error;
    try (rewrite bind_eq, modify_eq; apply free_await_ok).
  destruct (negb _); [reflexivity|].
  rewrite bind_eq, modify_eq. apply free_await_ok.
Qed.

(** What holds from a state to the state after a log line and a call that
    awaits the cleanup holds across every handler and every emission. *)
Lemma free_emit_lift (rel : State -> State -> Prop) :
  (forall s, rel s s) ->
  (forall a b c, rel a b -> rel b c -> rel a c) ->
  (forall e k s,
     observable e = true -> (forall l, e <> Invoke l) ->
     rel s (snd (FreeFunctions.await_cleanup behaviour k
                   (emit_effect e s)))) ->
  forall t s, rel s (snd (FreeFunctions.emit behaviour t s)).
Proof.
  intros Hrefl Htrans Hlog t s.
  assert (Hcall : forall f s0,
    rel s0 (snd (FreeFunctions.call_handler behaviour f t s0))).
  { intros f s0. unfold FreeFunctions.call_handler.
    destruct (fn_method f), t; try apply Hrefl;
      unfold FreeFunctions.beforeExitListener,
        FreeFunctions.uncaughtExceptionListener,
        FreeFunctions.signalListener,
        FreeFunctions.pm2ClusterShutdownListener,
        FreeFunctions.exitAfterCleanup, FreeFunctions.killAfterCleanup,
        console_log, console_error;
      try (rewrite bind_eq, modify_eq; apply Hlog;
           [reflexivity|discriminate]).
    destruct (negb _); [apply Hrefl|].
    rewrite bind_eq, modify_eq. apply Hlog; [reflexivity|discriminate]. }
  unfold FreeFunctions.emit.
  generalize (filter (fun x => event_eqb (AsyncCleanup.event_of t) (fst x))
                     (subs s)).
  intros hs. revert s. induction hs as [|[e f] hs IH]; intros s.
  - apply Hrefl.
  - cbn [forEach snd]. rewrite bind_eq.
    pose proof (free_call_handler_ok f t s) as Hok.
    pose proof (Hcall f s) as Hstep.
    destruct (FreeFunctions.call_handler behaviour f t s) as [r s1].
    cbn [fst snd] in *. subst r.
    eapply Htrans; [exact Hstep|apply IH].
Qed.

Lemma free_await_cleanup_or_nothing k s :
  cleanup_or_nothing s (snd (FreeFunctions.await_cleanup behaviour k s)).
Proof.
  destruct (cleanupListeners s) as [ls|] eqn:H.
  - rewrite (free_await_some behaviour k s ls H). right. exists ls.
    repeat split; [assumption|]. unfold invoked, free_suspended, push_frame.
    cbn [snd trace set_frames]. rewrite !flat_map_app.
    rewrite invoked_listener_effects. reflexivity.
  - rewrite (free_await_none behaviour k s H). left. split; reflexivity.
Qed.

Lemma free_logged_await_cleanup_or_nothing e k s :
  (forall l, e <> Invoke l) ->
  cleanup_or_nothing s
    (snd (FreeFunctions.await_cleanup behaviour k (emit_effect e s))).
Proof.
  intros He. apply cleanup_or_nothing_trans with (emit_effect e s).
  - left. split; [reflexivity|]. rewrite invoked_emit_effect.
    destruct e; try apply app_nil_r. now elim (He l).
  - apply free_await_cleanup_or_nothing.
Qed.

Lemma free_step_cleanup_or_nothing ev s :
  no_registry_call ev = true ->
  cleanup_or_nothing s (FreeFunctions.step behaviour ev s).
Proof.
  intros Hev. unfold FreeFunctions.step.
  destruct (exited s); [apply cleanup_or_nothing_refl|].
  destruct ev; try discriminate.
  - apply free_await_cleanup_or_nothing.
  - apply free_await_cleanup_or_nothing.
  - apply (free_emit_lift cleanup_or_nothing);
      [apply cleanup_or_nothing_refl|apply cleanup_or_nothing_trans|].
    intros e k s0 _ He. now apply free_logged_await_cleanup_or_nothing.
  - unfold settle. destruct (is_settled s p);
      [apply cleanup_or_nothing_refl|left; split; reflexivity].
  - left. rewrite free_tick_same. unfold AsyncCleanup.tick.
    destruct (resume_ready_quiet (frames s) (set_frames [] s)) as [A B].
    split; [exact A|exact B].
Qed.

Lemma free_run_cleanup_or_nothing evs : forall s,
  forallb no_registry_call evs = true ->
  cleanup_or_nothing s (FreeFunctions.run behaviour evs s).
Proof.
  induction evs as [|ev evs IH]; intros s H; cbn in *.
  - apply cleanup_or_nothing_refl.
  - apply andb_true_iff in H. destruct H as [Hev Hevs].
    eapply cleanup_or_nothing_trans;
      [apply free_step_cleanup_or_nothing; exact Hev|apply IH; exact Hevs].
Qed.

(** The invariant of the free functions, step by step. *)
Lemma free_await_invariant k s :
  free_invariant s ->
  free_invariant (snd (FreeFunctions.await_cleanup behaviour k s)).
Proof.
  intros (Hd & [[Hn Hs]|[Hn Hs]]).
  - rewrite (free_await_none behaviour k s Hn). split; [exact Hd|].
    left. split; assumption.
  - destruct (cleanupListeners s) as [ls|] eqn:Hc; [|now elim Hn].
    rewrite (free_await_some behaviour k s ls Hc). split.
    + unfold distinct, registered. cbn. constructor.
    + left. split; [reflexivity|]. cbn [snd push_frame subs set_frames].
      unfold free_suspended. cbn [subs]. rewrite Hs.
      apply free_after_teardown_handlers.
Qed.

Lemma free_step_invariant ev s :
  free_invariant s -> free_invariant (FreeFunctions.step behaviour ev s).
Proof.
  intros Hi. unfold FreeFunctions.step. destruct (exited s); [exact Hi|].
  destruct ev.
  - destruct Hi as (Hd & [[Hn Hs]|[Hn Hs]]).
    + rewrite (free_add_uninitialized l s Hn). split.
      * unfold distinct, registered. cbn. repeat constructor. intros [].
      * right. split; [discriminate|]. cbn [snd subs]. now rewrite Hs.
    + destruct (cleanupListeners s) as [ls|] eqn:Hc; [|now elim Hn].
      rewrite (free_add_active l s ls Hc). split.
      * unfold distinct, registered in *. rewrite Hc in Hd. cbn.
        now apply set_add_NoDup.
      * right. split; [discriminate|exact Hs].
  - destruct Hi as (Hd & Hcases).
    destruct (cleanupListeners s) as [ls|] eqn:Hc.
    + rewrite (free_remove_active l s ls Hc). split.
      * unfold distinct, registered in *. rewrite Hc in Hd. cbn.
        now apply set_delete_NoDup.
      * destruct Hcases as [[Hn _]|[_ Hs]]; [discriminate|].
        right. split; [discriminate|exact Hs].
    + rewrite (free_remove_uninitialized l s Hc). cbn [snd].
      unfold free_invariant. rewrite Hc. split; [exact Hd|exact Hcases].
  - exact Hi.
  - now apply free_await_invariant.
  - now apply free_await_invariant.
  - revert Hi.
    apply (free_emit_lift (fun a b => free_invariant a -> free_invariant b));
      [auto|auto|].
    intros e k s0 _ _ Hi0.
    apply (free_await_invariant k (emit_effect e s0)). exact Hi0.
  - unfold settle. destruct (is_settled s p); exact Hi.
  - rewrite free_tick_same. unfold AsyncCleanup.tick.
    destruct (resume_ready_quiet (frames s) (set_frames [] s)) as [A _].
    destruct (resume_ready_keeps_subs (frames s) (set_frames [] s))
      as [_ B].
    destruct Hi as (Hd & Hcases). unfold free_invariant, distinct, registered.
    rewrite A, B. split; [exact Hd|exact Hcases].
Qed.

Lemma free_run_invariant evs : forall s,
  free_invariant s -> free_invariant (FreeFunctions.run behaviour evs s).
Proof.
  induction evs as [|ev evs IH]; intros s H; [exact H|].
  cbn [FreeFunctions.run fold_left]. apply IH. now apply free_step_invariant.
Qed.

Lemma free_init_invariant own_pid : free_invariant (FreeFunctions.init own_pid).
Proof. split; [constructor|]. left. split; reflexivity. Qed.

End FreeInterceptor.

(** With the free functions, uninstalling undoes installing, whatever else
    is subscribed on [process]: [installExitListeners] adds the eight
    handlers behind the subscriptions there are, and
    [uninstallExitListeners] then leaves exactly those. *)
Theorem free_install_uninstall_round_trip s :
  let s1 := snd (FreeFunctions.installExitListeners s) in
  let s2 := snd (FreeFunctions.uninstallExitListeners s1) in
  subs s1 = subs s ++ free_handlers /\
  subs s2 = subs s /\
  map fst free_handlers =
    [EvBeforeExit; EvMessage; EvUncaughtException; EvSignal SIGBREAK;
     EvSignal SIGHUP; EvSignal SIGINT; EvSignal SIGTERM; EvSignal SIGUSR2].
Proof.
  cbn zeta. rewrite free_install_eq. cbn [snd].
  rewrite free_uninstall_eq. cbn [snd subs].
  split; [reflexivity|]. split; [apply free_after_teardown_installed|].
  reflexivity.
Qed.

Section FreeTriggers.

Variable behaviour : CleanupListener -> Behaviour.

Lemma free_emit_reaches_its_handler t s :
  subs s = free_handlers ->
  FreeFunctions.emit behaviour t s = free_handler behaviour t s.
Proof.
  intros Hs. unfold FreeFunctions.emit. rewrite Hs.
  unfold free_handlers, free_handler.
  destruct t as [code|m|e|sg]; [| | |destruct sg];
    cbn [filter map app event_eqb signal_eqb AsyncCleanup.event_of fst snd
         existsb orb FreeFunctions.listenedSignals forEach];
    try reflexivity;
    rewrite bind_ret_unit by apply free_call_handler_ok;
    reflexivity.
Qed.

Lemma free_emit_uninitialized t s :
  subs s = [] -> FreeFunctions.emit behaviour t s = (Ok tt, s).
Proof. intros Hs. unfold FreeFunctions.emit. now rewrite Hs. Qed.

(** With the free functions, interception follows the registry in every
    state the program reaches: while [cleanupListeners] is undefined nothing
    is subscribed and an event of the runtime changes nothing; while it is
    defined, also when it is empty, exactly the eight handlers are
    subscribed and an event runs the handler of its row of the trigger
    table, once. *)
Theorem free_interception_follows_registry evs own_pid t :
  let s := FreeFunctions.run behaviour evs (FreeFunctions.init own_pid) in
  match cleanupListeners s with
  | None =>
      subs s = [] /\ FreeFunctions.emit behaviour t s = (Ok tt, s)
  | Some _ =>
      subs s = free_handlers /\
      FreeFunctions.emit behaviour t s = free_handler behaviour t s
  end.
Proof.
  cbn zeta.
  pose proof (free_run_invariant behaviour evs _
                (free_init_invariant own_pid)) as (_ & Hcases).
  destruct (cleanupListeners _) as [ls|].
  - destruct Hcases as [[Hn _]|[_ Hs]]; [discriminate|].
    split; [exact Hs|now apply free_emit_reaches_its_handler].
  - destruct Hcases as [[_ Hs]|[Hn _]]; [|now elim Hn].
    split; [exact Hs|now apply free_emit_uninitialized].
Qed.

Lemma free_await_detaches k s :
  cleanupListeners
    (snd (FreeFunctions.await_cleanup behaviour k s)) = None /\
  invoked (snd (FreeFunctions.await_cleanup behaviour k s))
  = invoked s ++ registered s.
Proof.
  unfold registered. destruct (cleanupListeners s) as [ls|] eqn:H.
  - rewrite (free_await_some behaviour k s ls H). split; [reflexivity|].
    unfold invoked, free_suspended, push_frame.
    cbn [snd trace set_frames]. rewrite !flat_map_app.
    rewrite invoked_listener_effects. reflexivity.
  - rewrite (free_await_none behaviour k s H). split; [exact H|].
    cbn [snd]. rewrite app_nil_r. reflexivity.
Qed.

Lemma free_logged_await_detaches e k s :
  (forall l, e <> Invoke l) ->
  cleanupListeners
    (snd (FreeFunctions.await_cleanup behaviour k (emit_effect e s))) = None
  /\ invoked
       (snd (FreeFunctions.await_cleanup behaviour k (emit_effect e s)))
     = invoked s ++ registered s.
Proof.
  intros He. destruct (free_await_detaches k (emit_effect e s)) as [A B].
  split; [exact A|]. rewrite B, invoked_emit_effect.
  destruct e; rewrite ?app_nil_r; try reflexivity. now elim (He l).
Qed.

Lemma free_step_fires ev s :
  free_invariant s -> fires s ev = true -> exited s = None ->
  cleanupListeners (FreeFunctions.step behaviour ev s) = None /\
  invoked (FreeFunctions.step behaviour ev s) = invoked s ++ registered s.
Proof.
  intros Hi Hf He. unfold FreeFunctions.step. rewrite He.
  destruct ev; try discriminate.
  - apply free_await_detaches.
  - apply free_await_detaches.
  - cbn [fires] in Hf. destruct Hi as (_ & [[_ Hs]|[_ Hs]]);
      rewrite Hs in Hf; [discriminate|].
    rewrite (free_emit_reaches_its_handler t s Hs).
    unfold free_handler, free_handlers in *.
    destruct t as [code|m|e|sg]; [| | |destruct sg];
      cbn in Hf; try discriminate;
      unfold FreeFunctions.beforeExitListener,
        FreeFunctions.uncaughtExceptionListener,
        FreeFunctions.signalListener,
        FreeFunctions.pm2ClusterShutdownListener,
        FreeFunctions.exitAfterCleanup, FreeFunctions.killAfterCleanup,
        console_log, console_error;
      cbn [existsb signal_eqb orb FreeFunctions.listenedSignals];
      try (rewrite bind_eq, modify_eq;
           apply free_logged_await_detaches; discriminate).
    rewrite orb_false_r in Hf. rewrite Hf. cbn [negb].
    rewrite bind_eq, modify_eq. apply free_logged_await_detaches.
    discriminate.
Qed.

(** With the free functions too the cleanup runs once: when an event starts
    it, the listeners registered at that moment are invoked, in order, and
    whatever triggers, settlements and turns of the job queue follow invoke
    nothing more; and from then on nothing is subscribed, so that a signal
    sent to the process again is no longer intercepted. *)
Theorem free_cleanup_runs_once evs0 own_pid ev evs :
  let s := FreeFunctions.run behaviour evs0 (FreeFunctions.init own_pid) in
  let s' := FreeFunctions.run behaviour (ev :: evs) s in
  exited s = None -> fires s ev = true ->
  forallb no_registry_call evs = true ->
  invoked s' = invoked s ++ registered s /\
  NoDup (registered s) /\
  cleanupListeners s' = None /\ subs s' = [].
Proof.
  cbn zeta. intros He Hf Hevs.
  set (s := FreeFunctions.run behaviour evs0 (FreeFunctions.init own_pid))
    in *.
  assert (Hi : free_invariant s)
    by apply free_run_invariant, free_init_invariant.
  destruct (free_step_fires ev s Hi Hf He) as [Hn Hinv].
  cbn [FreeFunctions.run fold_left].
  fold (FreeFunctions.run behaviour evs (FreeFunctions.step behaviour ev s)).
  pose proof (free_run_cleanup_or_nothing behaviour evs
                (FreeFunctions.step behaviour ev s) Hevs) as Hrest.
  destruct (detached_stays_detached _ _ Hrest Hn) as [Hn' Hinv'].
  split; [congruence|]. split; [exact (proj1 Hi)|]. split; [exact Hn'|].
  assert (Hi' : free_invariant
                  (FreeFunctions.run behaviour evs
                     (FreeFunctions.step behaviour ev s)))
    by now apply free_run_invariant, free_step_invariant.
  destruct Hi' as (_ & [[_ Hs]|[Hne _]]); [exact Hs|now elim Hne].
Qed.

End FreeTriggers.

(** ** The class and the free functions, side by side *)






Section SideBySide.

Variable this : AsyncCleanup.Instance.
Variable behaviour : CleanupListener -> Behaviour.











End SideBySide.


(** ** The further statements on a run *)

(** Listeners 1 and 2 of the three registered. *)
Lemma registry_membership_witness :
  1 <> 2 /\
  is_registered 1 (snd (AsyncCleanup.remove Index.asyncCleanup 2
                          Scenario.active))
  = is_registered 1 Scenario.active.
Proof.
  assert (H : 1 <> 2) by discriminate.
  split; [exact H|].
  exact (proj2 (proj2 (proj2
    (registry_membership Index.asyncCleanup 1 2 Scenario.active H)))).
Defined.

(** Listener 1 removed and added again, then SIGINT. *)
Lemma readded_listener_runs_last_witness :
  exited Scenario.active = None /\
  fires (snd (AsyncCleanup.add Index.asyncCleanup 1
                (snd (AsyncCleanup.remove Index.asyncCleanup 1
                        Scenario.active))))
        (AsyncCleanup.Emit (AsyncCleanup.Signal SIGINT)) = true /\
  registered (snd (AsyncCleanup.add Index.asyncCleanup 1
                     (snd (AsyncCleanup.remove Index.asyncCleanup 1
                             Scenario.active))))
  = set_delete 1 (registered Scenario.active) ++ [1].
Proof.
  assert (H1 : exited Scenario.active = None) by (vm_compute; reflexivity).
  assert (H2 : fires (snd (AsyncCleanup.add Index.asyncCleanup 1
                (snd (AsyncCleanup.remove Index.asyncCleanup 1
                        Scenario.active))))
        (AsyncCleanup.Emit (AsyncCleanup.Signal SIGINT)) = true)
    by (vm_compute; reflexivity).
  split; [exact H1|].
  split; [exact H2|].
  exact (proj1
    (readded_listener_runs_last Index.asyncCleanup Scenario.behaviour 1
       Scenario.active _ H1 H2)).
Defined.

(** Listener 2 removed, then SIGINT and what follows it. *)
Lemma removed_listener_is_not_invoked_witness :
  exited Scenario.active = None /\
  fires (snd (AsyncCleanup.remove Index.asyncCleanup 2 Scenario.active))
        (AsyncCleanup.Emit (AsyncCleanup.Signal SIGINT)) = true /\
  forallb no_registry_call Scenario.aftermath = true /\
  invoked (AsyncCleanup.run Index.asyncCleanup Scenario.behaviour
             (AsyncCleanup.Emit (AsyncCleanup.Signal SIGINT)
              :: Scenario.aftermath)
             (snd (AsyncCleanup.remove Index.asyncCleanup 2 Scenario.active)))
  = invoked Scenario.active ++ set_delete 2 (registered Scenario.active).
Proof.
  assert (H1 : exited Scenario.active = None) by (vm_compute; reflexivity).
  assert (H2 : fires (snd (AsyncCleanup.remove Index.asyncCleanup 2
                             Scenario.active))
                 (AsyncCleanup.Emit (AsyncCleanup.Signal SIGINT)) = true)
    by (vm_compute; reflexivity).
  assert (H3 : forallb no_registry_call Scenario.aftermath = true)
    by (vm_compute; reflexivity).
  split; [exact H1|].
  split; [exact H2|].
  split; [exact H3|].
  exact (proj1
    (removed_listener_is_not_invoked Index.asyncCleanup Scenario.behaviour 2
       Scenario.active _ Scenario.aftermath H1 H2 H3)).
Defined.

(** The remover of listener 5 on the singleton. *)
Lemma remover_removes_witness :
  bound_instance Index.asyncCleanup /\
  exists remover,
    fst (AsyncCleanup.add Index.asyncCleanup 5 Scenario.fresh)
    = Ok remover /\
    forall s',
      AsyncCleanup.step Index.asyncCleanup Scenario.behaviour
        (AsyncCleanup.CallRemover remover) s'
      = AsyncCleanup.step Index.asyncCleanup Scenario.behaviour
          (AsyncCleanup.CallRemove 5) s'.
Proof.
  assert (H : bound_instance Index.asyncCleanup).
  { intros m. destruct m; split; reflexivity. }
  split; [exact H|].
  exact (remover_removes Index.asyncCleanup Scenario.behaviour 5
           Scenario.fresh H).
Defined.

(** SIGINT on the subscriptions the first [add] makes. *)
Lemma emit_reaches_its_handler_witness :
  bound_instance Index.asyncCleanup /\
  subs (snd (AsyncCleanup.add Index.asyncCleanup 1 Scenario.fresh))
  = installed_handlers Index.asyncCleanup 26 /\
  AsyncCleanup.emit Index.asyncCleanup Scenario.behaviour
    (AsyncCleanup.Signal SIGINT)
    (snd (AsyncCleanup.add Index.asyncCleanup 1 Scenario.fresh))
  = handler Index.asyncCleanup Scenario.behaviour
      (AsyncCleanup.Signal SIGINT)
      (snd (AsyncCleanup.add Index.asyncCleanup 1 Scenario.fresh)).
Proof.
  assert (H1 : bound_instance Index.asyncCleanup).
  { intros m. destruct m; split; reflexivity. }
  assert (H2 : subs (snd (AsyncCleanup.add Index.asyncCleanup 1
                            Scenario.fresh))
               = installed_handlers Index.asyncCleanup 26)
    by (vm_compute; reflexivity).
  split; [exact H1|].
  split; [exact H2|].
  exact (emit_reaches_its_handler Index.asyncCleanup Scenario.behaviour
           (AsyncCleanup.Signal SIGINT) 26 _ H1 H2).
Defined.


(** An uncaught exception with three listeners registered. *)
Lemma uncaught_exception_exits_with_1_witness :
  exited Scenario.active = None /\
  frames Scenario.active = [] /\
  forallb passive Scenario.settlements = true /\
  (let s1 := snd (AsyncCleanup.uncaughtExceptionListener Index.asyncCleanup
                    Scenario.behaviour "oops"%string Scenario.active) in
   let s2 := AsyncCleanup.run Index.asyncCleanup Scenario.behaviour
               (Scenario.settlements ++ [AsyncCleanup.Tick]) s1 in
   trace s2 = trace s1
              ++ rejection_log s2
                   (collected Scenario.behaviour (registered Scenario.active))
              ++ [ProcessExit 1] /\
   exited s2 = Some 1%Z).
Proof.
  assert (H1 : exited Scenario.active = None) by (vm_compute; reflexivity).
  assert (H2 : frames Scenario.active = []) by (vm_compute; reflexivity).
  assert (H3 : forallb passive Scenario.settlements = true)
    by (vm_compute; reflexivity).
  split; [exact H1|]. split; [exact H2|]. split; [exact H3|].
  pose proof (uncaught_exception_exits_with_1 Index.asyncCleanup
                Scenario.behaviour "oops"%string Scenario.active
                Scenario.settlements H1 H2 H3) as H.
  cbv zeta in H. destruct H as (_ & H).
  match type of H with
  | if ?b then _ else _ =>
      assert (Hall : b = true) by (vm_compute; reflexivity);
      rewrite Hall in H
  end.
  exact H.
Defined.

(** [killAfterCleanup('SIGKILL')] with three listeners registered. *)
Lemma killAfterCleanup_sends_signal_last_witness :
  exited Scenario.active = None /\
  frames Scenario.active = [] /\
  forallb passive Scenario.settlements = true /\
  (let s1 := snd (AsyncCleanup.killAfterCleanup Index.asyncCleanup
                    Scenario.behaviour SIGKILL Scenario.active) in
   let s2 := AsyncCleanup.run Index.asyncCleanup Scenario.behaviour
               (Scenario.settlements ++ [AsyncCleanup.Tick]) s1 in
   trace s2 = trace s1
              ++ rejection_log s2
                   (collected Scenario.behaviour (registered Scenario.active))
              ++ [ProcessKill (pid Scenario.active) SIGKILL] /\
   exited s2 = None).
Proof.
  assert (H1 : exited Scenario.active = None) by (vm_compute; reflexivity).
  assert (H2 : frames Scenario.active = []) by (vm_compute; reflexivity).
  assert (H3 : forallb passive Scenario.settlements = true)
    by (vm_compute; reflexivity).
  split; [exact H1|]. split; [exact H2|]. split; [exact H3|].
  pose proof (killAfterCleanup_sends_signal_last Index.asyncCleanup
                Scenario.behaviour SIGKILL Scenario.active
                Scenario.settlements H1 H2 H3) as H.
  cbv zeta in H. destruct H as (_ & H).
  match type of H with
  | if ?b then _ else _ =>
      assert (Hall : b = true) by (vm_compute; reflexivity);
      rewrite Hall in H
  end.
  exact H.
Defined.

(** Promise 30 is rejected, promise 20 never settles. *)
Lemma cleanup_never_times_out_witness :
  exited Scenario.active = None /\
  frames Scenario.active = [] /\
  forallb passive
    [AsyncCleanup.Settle 30 (Rejected "lost connection"%string);
     AsyncCleanup.Tick; AsyncCleanup.Tick] = true /\
  In 20 (collected Scenario.behaviour (registered Scenario.active)) /\
  is_settled Scenario.active 20 = false /\
  never_settles 20
    [AsyncCleanup.Settle 30 (Rejected "lost connection"%string);
     AsyncCleanup.Tick; AsyncCleanup.Tick] = true /\
  exited (AsyncCleanup.run Index.asyncCleanup Scenario.behaviour
            [AsyncCleanup.Settle 30 (Rejected "lost connection"%string);
             AsyncCleanup.Tick; AsyncCleanup.Tick]
            (snd (AsyncCleanup.exitAfterCleanup Index.asyncCleanup
                    Scenario.behaviour None Scenario.active))) = None.
Proof.
  assert (H1 : exited Scenario.active = None) by (vm_compute; reflexivity).
  assert (H2 : frames Scenario.active = []) by (vm_compute; reflexivity).
  assert (H3 : forallb passive
    [AsyncCleanup.Settle 30 (Rejected "lost connection"%string);
     AsyncCleanup.Tick; AsyncCleanup.Tick] = true) by reflexivity.
  assert (H4 : In 20 (collected Scenario.behaviour
                        (registered Scenario.active))).
  { vm_compute. left. reflexivity. }
  assert (H5 : is_settled Scenario.active 20 = false)
    by (vm_compute; reflexivity).
  assert (H6 : never_settles 20
    [AsyncCleanup.Settle 30 (Rejected "lost connection"%string);
     AsyncCleanup.Tick; AsyncCleanup.Tick] = true) by reflexivity.
  split; [exact H1|].
  split; [exact H2|].
  split; [exact H3|].
  split; [exact H4|].
  split; [exact H5|].
  split; [exact H6|].
  exact (proj1 (proj2 (proj1
    (cleanup_never_times_out Index.asyncCleanup Scenario.behaviour None
       SIGINT 20 Scenario.active _ H1 H2 H3 H4 H5 H6)))).
Defined.

(** [exitAfterCleanup(2)] while the cleanup started by
    [killAfterCleanup('SIGINT')] waits for promises 20 and 30. *)
Lemma exit_during_cleanup_does_not_wait_witness :
  exited (AsyncCleanup.run Index.asyncCleanup Scenario.behaviour
            [AsyncCleanup.CallKillAfterCleanup SIGINT] Scenario.active)
  = None /\
  cleanupListeners
    (AsyncCleanup.run Index.asyncCleanup Scenario.behaviour
       [AsyncCleanup.CallKillAfterCleanup SIGINT] Scenario.active) = None /\
  existsb
    (ready (AsyncCleanup.run Index.asyncCleanup Scenario.behaviour
              [AsyncCleanup.CallKillAfterCleanup SIGINT] Scenario.active))
    (frames (AsyncCleanup.run Index.asyncCleanup Scenario.behaviour
               [AsyncCleanup.CallKillAfterCleanup SIGINT] Scenario.active))
  = false /\
  exited (AsyncCleanup.tick
            (snd (AsyncCleanup.exitAfterCleanup Index.asyncCleanup
                    Scenario.behaviour (Some 2%Z)
                    (AsyncCleanup.run Index.asyncCleanup Scenario.behaviour
                       [AsyncCleanup.CallKillAfterCleanup SIGINT]
                       Scenario.active))))
  = Some 2%Z.
Proof.
  assert (H1 : exited (AsyncCleanup.run Index.asyncCleanup
                         Scenario.behaviour
                         [AsyncCleanup.CallKillAfterCleanup SIGINT]
                         Scenario.active) = None)
    by (vm_compute; reflexivity).
  assert (H2 : cleanupListeners
                 (AsyncCleanup.run Index.asyncCleanup Scenario.behaviour
                    [AsyncCleanup.CallKillAfterCleanup SIGINT]
                    Scenario.active) = None)
    by (vm_compute; reflexivity).
  assert (H3 : existsb
    (ready (AsyncCleanup.run Index.asyncCleanup Scenario.behaviour
              [AsyncCleanup.CallKillAfterCleanup SIGINT] Scenario.active))
    (frames (AsyncCleanup.run Index.asyncCleanup Scenario.behaviour
               [AsyncCleanup.CallKillAfterCleanup SIGINT] Scenario.active))
    = false) by (vm_compute; reflexivity).
  split; [exact H1|].
  split; [exact H2|].
  split; [exact H3|].
  exact (proj1
    (exit_during_cleanup_does_not_wait Index.asyncCleanup Scenario.behaviour
       (Some 2%Z) _ H1 H2 H3)).
Defined.

(** The free functions: three listeners, SIGINT, and what follows it. *)
Lemma free_cleanup_runs_once_witness :
  exited (FreeFunctions.run Scenario.behaviour
            [AsyncCleanup.CallAdd 1; AsyncCleanup.CallAdd 2;
             AsyncCleanup.CallAdd 3] (FreeFunctions.init 4242)) = None /\
  fires (FreeFunctions.run Scenario.behaviour
           [AsyncCleanup.CallAdd 1; AsyncCleanup.CallAdd 2;
            AsyncCleanup.CallAdd 3] (FreeFunctions.init 4242))
        (AsyncCleanup.Emit (AsyncCleanup.Signal SIGINT)) = true /\
  forallb no_registry_call Scenario.aftermath = true /\
  subs (FreeFunctions.run Scenario.behaviour
          (AsyncCleanup.Emit (AsyncCleanup.Signal SIGINT)
           :: Scenario.aftermath)
          (FreeFunctions.run Scenario.behaviour
             [AsyncCleanup.CallAdd 1; AsyncCleanup.CallAdd 2;
              AsyncCleanup.CallAdd 3] (FreeFunctions.init 4242))) = [].
Proof.
  assert (H1 : exited (FreeFunctions.run Scenario.behaviour
            [AsyncCleanup.CallAdd 1; AsyncCleanup.CallAdd 2;
             AsyncCleanup.CallAdd 3] (FreeFunctions.init 4242)) = None)
    by (vm_compute; reflexivity).
  assert (H2 : fires (FreeFunctions.run Scenario.behaviour
           [AsyncCleanup.CallAdd 1; AsyncCleanup.CallAdd 2;
            AsyncCleanup.CallAdd 3] (FreeFunctions.init 4242))
        (AsyncCleanup.Emit (AsyncCleanup.Signal SIGINT)) = true)
    by (vm_compute; reflexivity).
  assert (H3 : forallb no_registry_call Scenario.aftermath = true)
    by (vm_compute; reflexivity).
  split; [exact H1|].
  split; [exact H2|].
  split; [exact H3|].
  exact (proj2 (proj2 (proj2
    (free_cleanup_runs_once Scenario.behaviour
       [AsyncCleanup.CallAdd 1; AsyncCleanup.CallAdd 2;
        AsyncCleanup.CallAdd 3] 4242 _ Scenario.aftermath H1 H2 H3)))).
Defined.

